(** * EPOCH engine: entity pool, spatial grid and three-gate collision

    A shallow embedding of
      - [src/projects/epoch/src/engine/config.h]   (build constants),
      - [src/projects/epoch/src/engine/entity.h/.c] (entity pool),
      - [src/projects/epoch/src/engine/spatial.h/.c] (spatial grid, collision),
    together with the properties of the pool allocator, of the grid and of
    the collision filter.

    C integers are modelled as [Z] with the wrap-around of every cast and
    store written out; the global arrays are lists of their declared length,
    indexed through checked accessors, so that an access outside the declared
    bounds is visible as an [OutOfBounds] outcome instead of a silent
    default. *)

From Stdlib Require Import ZArith Lia Bool List.
From stdpp Require Import base numbers list.
Import ListNotations.

Local Open Scope Z_scope.

(** ** Machine integers *)

Definition to_u8 (z : Z) : Z := z mod 256.
Definition to_u16 (z : Z) : Z := z mod 65536.
Definition to_s8 (z : Z) : Z := (z + 128) mod 256 - 128.
Definition to_s16 (z : Z) : Z := (z + 32768) mod 65536 - 32768.

Definition is_u8 (z : Z) : Prop := 0 <= z < 256.

(** ** Outcomes of a call

    [Ok a]: the call returns [a].  [OutOfBounds arr i]: the call reads or
    writes element [i] of the array [arr], outside its declared bounds.
    [Diverges]: the loop bound given to the model was exhausted. *)

Inductive array_id : Type :=
  | ArrEntities
  | ArrFirstInCell
  | ArrNextEntity.

Inductive outcome (A : Type) : Type :=
  | Ok (a : A)
  | OutOfBounds (arr : array_id) (idx : Z)
  | Diverges.

Arguments Ok {A} a.
Arguments OutOfBounds {A} arr idx.
Arguments Diverges {A}.

Definition bind {A B : Type} (c : outcome A) (k : A -> outcome B) : outcome B :=
  match c with
  | Ok a => k a
  | OutOfBounds arr i => OutOfBounds arr i
  | Diverges => Diverges
  end.

Notation "'let!' x ':=' c 'in' k" := (bind c (fun x => k))
  (at level 10, x name, c at level 100, k at level 200).

(** Checked array access: element [i] of an array stored as a list. *)
Definition load {A : Type} (arr : array_id) (l : list A) (i : Z) : outcome A :=
  if i <? 0 then OutOfBounds arr i
  else match l !! Z.to_nat i with
       | Some a => Ok a
       | None => OutOfBounds arr i
       end.

Definition store {A : Type} (arr : array_id) (l : list A) (i : Z) (a : A)
  : outcome (list A) :=
  if i <? 0 then OutOfBounds arr i
  else if (Z.to_nat i <? length l)%nat then Ok (<[Z.to_nat i := a]> l)
  else OutOfBounds arr i.

(** ** Build configuration (config.h, constants.h)

    Every constant of config.h is guarded by [#ifndef], so a game may
    override it; the model takes them from a record. *)

Record Config : Type := {
  MAX_ENTITIES : Z;
  MAP_WIDTH : Z;
  MAP_HEIGHT : Z;
  SLOT_PLAYER : Z;
  SLOT_FENRIR : Z;
  SLOT_ENEMIES_START : Z;
  SLOT_ENEMIES_END : Z;
  SLOT_PROJ_START : Z;
  SLOT_PROJ_END : Z;
  SLOT_TOWERS_START : Z
}.

(** The values EPOCH is built with (constants.h, then the defaults of
    config.h). *)
Definition epoch_config : Config := {|
  MAX_ENTITIES := 64;
  MAP_WIDTH := 1280;
  MAP_HEIGHT := 896;
  SLOT_PLAYER := 0;
  SLOT_FENRIR := 1;
  SLOT_ENEMIES_START := 2;
  SLOT_ENEMIES_END := 25;
  SLOT_PROJ_START := 26;
  SLOT_PROJ_END := 57;
  SLOT_TOWERS_START := 58
|}.

(** A build whose projectile range is the four slots [0,4): the enemy
    range is [4,6), the player range [6,8) and the miscellaneous range
    [8,12). *)
Definition four_slot_config : Config := {|
  MAX_ENTITIES := 12;
  MAP_WIDTH := 1280;
  MAP_HEIGHT := 896;
  SLOT_PLAYER := 6;
  SLOT_FENRIR := 7;
  SLOT_ENEMIES_START := 4;
  SLOT_ENEMIES_END := 5;
  SLOT_PROJ_START := 0;
  SLOT_PROJ_END := 3;
  SLOT_TOWERS_START := 8
|}.

Definition FP_SHIFT : Z := 8.
Definition FP (v : Z) : Z := Z.shiftl v FP_SHIFT.
Definition FP_INT (v : Z) : Z := Z.shiftr v FP_SHIFT.

(** ** Entities (entity.h) *)

Definition ENT_ACTIVE : Z := 1.
Definition ENT_VISIBLE : Z := 2.

Definition COLL_NONE : Z := 0.
Definition COLL_PLAYER : Z := 1.
Definition COLL_ENEMY : Z := 2.
Definition COLL_PROJ_PLR : Z := 4.
Definition COLL_PROJ_ENY : Z := 8.
Definition COLL_PICKUP : Z := 16.
Definition COLL_TOWER : Z := 32.
Definition COLL_FENRIR : Z := 64.

Definition ENT_TYPE_NONE : Z := 0.
Definition ENT_TYPE_PLAYER : Z := 16.
Definition ENT_TYPE_FENRIR : Z := 17.
Definition ENT_TYPE_ENEMY_BASIC : Z := 32.
Definition ENT_TYPE_PROJ_PLAYER : Z := 48.
Definition ENT_TYPE_PROJ_ENEMY : Z := 49.
Definition ENT_TYPE_TOWER_BASIC : Z := 64.
Definition ENT_TYPE_TOWER_CENTER : Z := 67.
Definition ENT_TYPE_PICKUP_XP : Z := 96.

Record Entity : Type := {
  flags : Z;
  type : Z;
  timer : Z;
  frame : Z;
  x : Z;
  y : Z;
  vx : Z;
  vy : Z;
  hp : Z;
  data : Z;
  width : Z;
  height : Z;
  spriteId : Z;
  collMask : Z
}.

(** [memset(…, 0, …)] of one entity. *)
Definition zero_entity : Entity := {|
  flags := 0; type := 0; timer := 0; frame := 0; x := 0; y := 0;
  vx := 0; vy := 0; hp := 0; data := 0; width := 0; height := 0;
  spriteId := 0; collMask := 0
|}.

(** Field assignments [e.f = v]. *)
Definition set_flags (v : Z) (e : Entity) : Entity :=
  {| flags := v; type := type e; timer := timer e; frame := frame e;
     x := x e; y := y e; vx := vx e; vy := vy e; hp := hp e; data := data e;
     width := width e; height := height e; spriteId := spriteId e;
     collMask := collMask e |}.
Definition set_type (v : Z) (e : Entity) : Entity :=
  {| flags := flags e; type := v; timer := timer e; frame := frame e;
     x := x e; y := y e; vx := vx e; vy := vy e; hp := hp e; data := data e;
     width := width e; height := height e; spriteId := spriteId e;
     collMask := collMask e |}.
Definition set_timer (v : Z) (e : Entity) : Entity :=
  {| flags := flags e; type := type e; timer := v; frame := frame e;
     x := x e; y := y e; vx := vx e; vy := vy e; hp := hp e; data := data e;
     width := width e; height := height e; spriteId := spriteId e;
     collMask := collMask e |}.
Definition set_data (v : Z) (e : Entity) : Entity :=
  {| flags := flags e; type := type e; timer := timer e; frame := frame e;
     x := x e; y := y e; vx := vx e; vy := vy e; hp := hp e; data := v;
     width := width e; height := height e; spriteId := spriteId e;
     collMask := collMask e |}.
Definition set_width (v : Z) (e : Entity) : Entity :=
  {| flags := flags e; type := type e; timer := timer e; frame := frame e;
     x := x e; y := y e; vx := vx e; vy := vy e; hp := hp e; data := data e;
     width := v; height := height e; spriteId := spriteId e;
     collMask := collMask e |}.
Definition set_height (v : Z) (e : Entity) : Entity :=
  {| flags := flags e; type := type e; timer := timer e; frame := frame e;
     x := x e; y := y e; vx := vx e; vy := vy e; hp := hp e; data := data e;
     width := width e; height := v; spriteId := spriteId e;
     collMask := collMask e |}.
Definition set_collMask (v : Z) (e : Entity) : Entity :=
  {| flags := flags e; type := type e; timer := timer e; frame := frame e;
     x := x e; y := y e; vx := vx e; vy := vy e; hp := hp e; data := data e;
     width := width e; height := height e; spriteId := spriteId e;
     collMask := v |}.
Definition set_x (v : Z) (e : Entity) : Entity :=
  {| flags := flags e; type := type e; timer := timer e; frame := frame e;
     x := v; y := y e; vx := vx e; vy := vy e; hp := hp e; data := data e;
     width := width e; height := height e; spriteId := spriteId e;
     collMask := collMask e |}.
Definition set_y (v : Z) (e : Entity) : Entity :=
  {| flags := flags e; type := type e; timer := timer e; frame := frame e;
     x := x e; y := v; vx := vx e; vy := vy e; hp := hp e; data := data e;
     width := width e; height := height e; spriteId := spriteId e;
     collMask := collMask e |}.
Definition set_vx (v : Z) (e : Entity) : Entity :=
  {| flags := flags e; type := type e; timer := timer e; frame := frame e;
     x := x e; y := y e; vx := v; vy := vy e; hp := hp e; data := data e;
     width := width e; height := height e; spriteId := spriteId e;
     collMask := collMask e |}.

(** [e.flags & ENT_ACTIVE] as a C truth value. *)
Definition is_active (e : Entity) : bool :=
  negb (Z.land (flags e) ENT_ACTIVE =? 0).

(** ** The entity pool (entity.c)

    The globals [entities] and [entityCount].  [playerData] and
    [fenrirData] are separate globals that only [entity_initPool] clears;
    no operation below reads them and they are left out of the state. *)

Record Pool : Type := {
  entities : list Entity;
  entityCount : Z
}.

Section Engine.

Variable cfg : Config.

Definition wf_pool (p : Pool) : Prop :=
  length (entities p) = Z.to_nat (MAX_ENTITIES cfg).

(** The slot ranges lie inside the array, and slot numbers fit the [s8]
    that [entity_alloc] returns. *)
Definition wf_config : Prop :=
  0 <= SLOT_PLAYER cfg <= SLOT_FENRIR cfg + 1 /\
  SLOT_FENRIR cfg + 1 <= MAX_ENTITIES cfg /\
  0 <= SLOT_ENEMIES_START cfg <= SLOT_ENEMIES_END cfg + 1 /\
  SLOT_ENEMIES_END cfg + 1 <= MAX_ENTITIES cfg /\
  0 <= SLOT_PROJ_START cfg <= SLOT_PROJ_END cfg + 1 /\
  SLOT_PROJ_END cfg + 1 <= MAX_ENTITIES cfg /\
  0 <= SLOT_TOWERS_START cfg <= MAX_ENTITIES cfg /\
  MAX_ENTITIES cfg <= 128.

Definition entity_initPool : Pool :=
  {| entities := replicate (Z.to_nat (MAX_ENTITIES cfg)) zero_entity;
     entityCount := 0 |}.

(** The [switch (type & 0xF0)] of [entity_alloc]: the pair
    [(start, end)], both stored in [u8] variables. *)
Definition slot_range (ty : Z) : Z * Z :=
  let cat := Z.land ty 240 in
  if cat =? 16 then (to_u8 (SLOT_PLAYER cfg), to_u8 (SLOT_FENRIR cfg + 1))
  else if cat =? 32 then
    (to_u8 (SLOT_ENEMIES_START cfg), to_u8 (SLOT_ENEMIES_END cfg + 1))
  else if cat =? 48 then
    (to_u8 (SLOT_PROJ_START cfg), to_u8 (SLOT_PROJ_END cfg + 1))
  else (to_u8 (SLOT_TOWERS_START cfg), to_u8 (MAX_ENTITIES cfg)).

(** The default hitbox and collision mask of a type: the [if]/[else if]
    chain of [entity_alloc], as the triple (width, height, collMask). *)
Definition default_hitbox (ty : Z) : Z * Z * Z :=
  let cat := Z.land ty 240 in
  if cat =? ENT_TYPE_PLAYER then
    (16, 16, if ty =? ENT_TYPE_PLAYER then COLL_PLAYER else COLL_FENRIR)
  else if cat =? ENT_TYPE_ENEMY_BASIC then (24, 24, COLL_ENEMY)
  else if cat =? ENT_TYPE_PROJ_PLAYER then
    (12, 12, if ty =? ENT_TYPE_PROJ_PLAYER then COLL_PROJ_PLR else COLL_PROJ_ENY)
  else if cat =? ENT_TYPE_TOWER_BASIC then (64, 64, COLL_TOWER)
  else if cat =? 96 then (16, 16, COLL_PICKUP)
  else (16, 16, COLL_NONE).

(** The writes [entity_alloc] makes to the slot it found. *)
Definition alloc_init (ty : Z) (e : Entity) : Entity :=
  let e := set_flags (Z.lor ENT_ACTIVE ENT_VISIBLE) e in
  let e := set_type ty e in
  let e := set_timer 0 e in
  let e := set_data 0 e in
  let '(w, h, m) := default_hitbox ty in
  let e := set_width w e in
  let e := set_height h e in
  set_collMask m e.

(** The loop [for (u8 i = start; i < end; i++)], with [n] the number of
    iterations left ([end - i]).  [i] stays below [end], itself a [u8], so
    the increment never wraps. *)
Fixpoint alloc_scan (n : nat) (i : Z) (ty : Z) (p : Pool) : outcome (Z * Pool) :=
  match n with
  | O => Ok (to_s8 (-1), p)
  | S n' =>
      let! e := load ArrEntities (entities p) i in
      if is_active e then alloc_scan n' (i + 1) ty p
      else
        let! es := store ArrEntities (entities p) i (alloc_init ty e) in
        Ok (to_s8 i,
            {| entities := es; entityCount := to_u8 (entityCount p + 1) |})
  end.

Definition entity_alloc (ty : Z) (p : Pool) : outcome (Z * Pool) :=
  let '(start, end_) := slot_range ty in
  alloc_scan (Z.to_nat (end_ - start)) start ty p.

Definition entity_free (slot : Z) (p : Pool) : outcome Pool :=
  if slot <? MAX_ENTITIES cfg then
    let! e := load ArrEntities (entities p) slot in
    if is_active e then
      let! es := store ArrEntities (entities p) slot
              (set_type ENT_TYPE_NONE (set_flags 0 e)) in
      Ok {| entities := es;
            entityCount := if 0 <? entityCount p
                           then to_u8 (entityCount p - 1)
                           else entityCount p |}
    else Ok p
  else Ok p.

Definition entity_freeAll : Pool := entity_initPool.

(** ** The spatial grid (spatial.h, spatial.c) *)

Definition SPATIAL_CELL_SHIFT : Z := 6.
Definition SPATIAL_GRID_W_SHIFT : Z := 5.
Definition SPATIAL_GRID_W : Z := Z.shiftl 1 SPATIAL_GRID_W_SHIFT.
Definition SPATIAL_GRID_H : Z := 16.
Definition SPATIAL_GRID_CELLS : Z := SPATIAL_GRID_W * SPATIAL_GRID_H.
Definition SPATIAL_NULL : Z := 255.

Record SpatialGrid : Type := {
  firstInCell : list Z;
  nextEntity : list Z
}.

Definition wf_grid (g : SpatialGrid) : Prop :=
  length (firstInCell g) = Z.to_nat SPATIAL_GRID_CELLS /\
  length (nextEntity g) = Z.to_nat (MAX_ENTITIES cfg).

Definition spatial_clear : SpatialGrid :=
  {| firstInCell := replicate (Z.to_nat SPATIAL_GRID_CELLS) SPATIAL_NULL;
     nextEntity := replicate (Z.to_nat (MAX_ENTITIES cfg)) SPATIAL_NULL |}.

(** [px] and [py] are [s16], [cellX] and [cellY] are [u8], the result is
    [u16]; the comparisons are made on [int]. *)
Definition spatial_getCellIndex (x y : Z) : Z :=
  let px := to_s16 (FP_INT x) in
  let py := to_s16 (FP_INT y) in
  let px := if px <? 0 then 0 else px in
  let px := if px >=? MAP_WIDTH cfg then to_s16 (MAP_WIDTH cfg - 1) else px in
  let py := if py <? 0 then 0 else py in
  let py := if py >=? MAP_HEIGHT cfg then to_s16 (MAP_HEIGHT cfg - 1) else py in
  let cellX := to_u8 (Z.shiftr px SPATIAL_CELL_SHIFT) in
  let cellY := to_u8 (Z.shiftr py SPATIAL_CELL_SHIFT) in
  let cellX := if cellX >=? SPATIAL_GRID_W then to_u8 (SPATIAL_GRID_W - 1)
               else cellX in
  let cellY := if cellY >=? SPATIAL_GRID_H then to_u8 (SPATIAL_GRID_H - 1)
               else cellY in
  to_u16 (cellX + Z.shiftl cellY SPATIAL_GRID_W_SHIFT).

Definition spatial_insert (slot x y : Z) (g : SpatialGrid) : outcome SpatialGrid :=
  let cellIndex := spatial_getCellIndex x y in
  let! head := load ArrFirstInCell (firstInCell g) cellIndex in
  let! nx := store ArrNextEntity (nextEntity g) slot head in
  let! fi := store ArrFirstInCell (firstInCell g) cellIndex slot in
  Ok {| firstInCell := fi; nextEntity := nx |}.

Definition spatial_getFirstInCell (cellIndex : Z) (g : SpatialGrid) : outcome Z :=
  if cellIndex >=? SPATIAL_GRID_CELLS then Ok SPATIAL_NULL
  else load ArrFirstInCell (firstInCell g) cellIndex.

(** ** The three-gate collision query (spatial.c) *)

(** [if (d < 0) d = -d;] on an [s16]. *)
Definition abs16 (d : Z) : Z := if d <? 0 then to_s16 (- d) else d.

(** The values cached from the source entity. *)
Definition srcX (source : Entity) : Z := to_s16 (Z.shiftr (x source) 8).
Definition srcY (source : Entity) : Z := to_s16 (Z.shiftr (y source) 8).
Definition srcHalfW (source : Entity) : Z := to_s16 (Z.shiftr (width source) 1).
Definition srcHalfH (source : Entity) : Z := to_s16 (Z.shiftr (height source) 1).
Definition manhattanMax (source : Entity) : Z :=
  to_s16 (srcHalfW source + srcHalfH source + 32).

(** [dx] and [dy] after the inline abs. *)
Definition dist_x (source target : Entity) : Z :=
  abs16 (to_s16 (srcX source - to_s16 (Z.shiftr (x target) 8))).
Definition dist_y (source target : Entity) : Z :=
  abs16 (to_s16 (srcY source - to_s16 (Z.shiftr (y target) 8))).

Definition gate1 (target : Entity) (targetMask : Z) : bool :=
  negb (Z.land (collMask target) targetMask =? 0).

Definition gate2 (source target : Entity) : bool :=
  dist_x source target + dist_y source target <? manhattanMax source.

Definition gate3 (source target : Entity) : bool :=
  let tgtHalfW := to_s16 (Z.shiftr (width target) 1) in
  let tgtHalfH := to_s16 (Z.shiftr (height target) 1) in
  let combinedW := to_s16 (srcHalfW source + tgtHalfW) in
  let combinedH := to_s16 (srcHalfH source + tgtHalfH) in
  (dist_x source target <? combinedW) && (dist_y source target <? combinedH).

(** The three nested gates applied to an active target. *)
Definition gates (source target : Entity) (targetMask : Z) : bool :=
  if gate1 target targetMask then
    if gate2 source target then gate3 source target else false
  else false.

(** The body of the [while] loop for one candidate: [true] when the loop
    returns [slot].  [entities[slot]] is read only after the parity test
    and the self test have passed. *)
Definition examine (sourceSlot targetMask frameCount : Z) (source : Entity)
    (p : Pool) (slot : Z) : outcome bool :=
  if Z.land slot 1 =? Z.land frameCount 1 then
    if negb (slot =? sourceSlot) then
      let! target := load ArrEntities (entities p) slot in
      if is_active target then Ok (gates source target targetMask)
      else Ok false
    else Ok false
  else Ok false.

(** [while (slot != SPATIAL_NULL) { ...; slot = nextEntity[slot]; }].  The
    C loop has no bound of its own (a cyclic list makes it spin), so the
    model takes the number of iterations it may run. *)
Fixpoint cell_walk (fuel : nat) (sourceSlot targetMask frameCount : Z)
    (source : Entity) (p : Pool) (g : SpatialGrid) (slot : Z) : outcome Z :=
  match fuel with
  | O => Diverges
  | S fuel' =>
      if slot =? SPATIAL_NULL then Ok 255
      else
        let! hit := examine sourceSlot targetMask frameCount source p slot in
        if hit then Ok slot
        else
          let! next := load ArrNextEntity (nextEntity g) slot in
          cell_walk fuel' sourceSlot targetMask frameCount source p g next
  end.

Definition spatial_checkCollisionThreeGate (fuel : nat)
    (sourceSlot targetMask frameCount : Z) (p : Pool) (g : SpatialGrid)
  : outcome Z :=
  let! source := load ArrEntities (entities p) sourceSlot in
  let srcCell := spatial_getCellIndex (x source) (y source) in
  let! slot := load ArrFirstInCell (firstInCell g) srcCell in
  cell_walk fuel sourceSlot targetMask frameCount source p g slot.

(** The list of slots the loop visits from [slot] until it reaches
    [SPATIAL_NULL]. *)
Inductive chain (g : SpatialGrid) : Z -> list Z -> Prop :=
  | chain_null : chain g SPATIAL_NULL []
  | chain_next slot next l :
      slot <> SPATIAL_NULL ->
      load ArrNextEntity (nextEntity g) slot = Ok next ->
      chain g next l ->
      chain g slot (slot :: l).

(** Writes made by the gameplay layer between two calls of the engine:
    position and velocity of a slot. *)
Definition place (slot px py : Z) (p : Pool) : Pool :=
  {| entities := alter (fun e => set_y (FP py) (set_x (FP px) e))
                   (Z.to_nat slot) (entities p);
     entityCount := entityCount p |}.

Definition push (slot v : Z) (p : Pool) : Pool :=
  {| entities := alter (set_vx v) (Z.to_nat slot) (entities p);
     entityCount := entityCount p |}.

End Engine.

(** ** Notions used by the statements *)

(** The active flag of a slot of the pool. *)
Definition slot_active (p : Pool) (i : Z) : bool :=
  match entities p !! Z.to_nat i with
  | Some e => is_active e
  | None => false
  end.

(** The number of entities whose [ENT_ACTIVE] flag is set. *)
Definition count_active (l : list Entity) : Z :=
  Z.of_nat (length (List.filter is_active l)).

(** The states the pool goes through from [entity_initPool] under calls
    of [entity_alloc] and [entity_free] with any [u8] argument. *)
Inductive reachable (cfg : Config) : Pool -> Prop :=
  | reach_init : reachable cfg (entity_initPool cfg)
  | reach_alloc p ty slot p' :
      reachable cfg p -> is_u8 ty ->
      entity_alloc cfg ty p = Ok (slot, p') -> reachable cfg p'
  | reach_free p slot p' :
      reachable cfg p -> is_u8 slot ->
      entity_free cfg slot p = Ok p' -> reachable cfg p'.

Definition pool_inv (cfg : Config) (p : Pool) : Prop :=
  wf_pool cfg p /\ entityCount p = count_active (entities p).

(** Clamping of a value into [[lo, hi]], for stating what the cell index
    is. *)
Definition clamp (lo hi v : Z) : Z := Z.max lo (Z.min hi v).

(** What [examine] answers for a slot inside the pool, without the
    access check. *)
Definition hits (sourceSlot targetMask frameCount : Z) (source : Entity)
    (p : Pool) (slot : Z) : bool :=
  (Z.land slot 1 =? Z.land frameCount 1) && negb (slot =? sourceSlot) &&
  match entities p !! Z.to_nat slot with
  | Some target => is_active target && gates source target targetMask
  | None => false
  end.

(** The first slot of a list that [hits], or the no-collision value. *)
Fixpoint first_hit (sourceSlot targetMask frameCount : Z) (source : Entity)
    (p : Pool) (l : list Z) : Z :=
  match l with
  | [] => 255
  | slot :: l' =>
      if hits sourceSlot targetMask frameCount source p slot then slot
      else first_hit sourceSlot targetMask frameCount source p l'
  end.

(** The pair (source slot [s], candidate slot [t]) satisfies all three
    gates in the state [(p, g)]: [t] is another, active entity in the list
    of the source's cell, it passes Gate 1 for the mask, Gate 2 and Gate 3,
    and no active candidate ahead of it in that list passes the gates (the
    query returns the first match).  The list ends, its slots are slots of
    the pool, and the loop is allowed to run through it. *)
Definition colliding_pair (cfg : Config) (fuel : nat) (s t mask : Z)
    (p : Pool) (g : SpatialGrid) : Prop :=
  exists source target head pre post,
    wf_pool cfg p /\
    load ArrEntities (entities p) s = Ok source /\
    load ArrFirstInCell (firstInCell g)
      (spatial_getCellIndex cfg (x source) (y source)) = Ok head /\
    chain g head (pre ++ t :: post) /\
    (forall u, In u (pre ++ t :: post) -> 0 <= u < MAX_ENTITIES cfg) /\
    (length (pre ++ t :: post) < fuel)%nat /\
    t <> s /\
    load ArrEntities (entities p) t = Ok target /\
    is_active target = true /\
    gate1 target mask = true /\
    gate2 source target = true /\
    gate3 source target = true /\
    (forall u e, In u pre -> u <> s ->
                 load ArrEntities (entities p) u = Ok e ->
                 is_active e = true -> gates source e mask = false).

(** ** Concrete states *)

(** The value a call returned, for building concrete states. *)
Definition got {A : Type} (o : outcome A) (d : A) : A :=
  match o with
  | Ok a => a
  | _ => d
  end.

Definition pool_after (cfg : Config) (o : outcome (Z * Pool)) : Pool :=
  snd (got o (0, entity_initPool cfg)).

(** EPOCH's pool with the player spawned (main.c). *)
Definition player_pool : Pool :=
  pool_after epoch_config
    (entity_alloc epoch_config ENT_TYPE_PLAYER (entity_initPool epoch_config)).

(** An enemy is spawned in slot 2, the gameplay layer gives it a velocity,
    and it is freed again. *)
Definition stale_pool : Pool :=
  got (entity_free epoch_config 2
         (push 2 256
            (pool_after epoch_config
               (entity_alloc epoch_config ENT_TYPE_ENEMY_BASIC
                  (entity_initPool epoch_config)))))
      (entity_initPool epoch_config).

(** An enemy and a projectile are spawned and the enemy is freed. *)
Definition cycled_pool : Pool :=
  got (entity_free epoch_config 2
         (pool_after epoch_config
            (entity_alloc epoch_config ENT_TYPE_PROJ_PLAYER
               (pool_after epoch_config
                  (entity_alloc epoch_config ENT_TYPE_ENEMY_BASIC
                     (entity_initPool epoch_config))))))
      (entity_initPool epoch_config).

(** The ceiling given to the loop in the concrete runs: a list without
    repetition has at most [MAX_ENTITIES] = 64 slots. *)
Definition walk_limit : nat := 65.

(** A projectile (slot 26) at pixel (70,70), an enemy (slot 3) at (80,70)
    and an enemy (slot 2) at (120,120); the enemies are inserted in the
    grid, slot 3 first, as [enemies_update] does for each active enemy. *)
Definition skirmish_pool : Pool :=
  let c := epoch_config in
  let p := pool_after c (entity_alloc c ENT_TYPE_PROJ_PLAYER (entity_initPool c)) in
  let p := pool_after c (entity_alloc c ENT_TYPE_ENEMY_BASIC p) in
  let p := pool_after c (entity_alloc c ENT_TYPE_ENEMY_BASIC p) in
  place 2 120 120 (place 3 80 70 (place 26 70 70 p)).

Definition skirmish_grid : SpatialGrid :=
  let c := epoch_config in
  let g := got (spatial_insert c 3 (FP 80) (FP 70) (spatial_clear c)) (spatial_clear c) in
  got (spatial_insert c 2 (FP 120) (FP 120) g) (spatial_clear c).

(** A projectile (slot 26) at pixel (70,70) and the centre tower (slot 58,
    64x64 by default) at (100,98), in the same cell; the tower is
    inserted in the grid. *)
Definition tower_pool : Pool :=
  let c := epoch_config in
  let p := pool_after c (entity_alloc c ENT_TYPE_PROJ_PLAYER (entity_initPool c)) in
  let p := pool_after c (entity_alloc c ENT_TYPE_TOWER_CENTER p) in
  place 58 100 98 (place 26 70 70 p).

Definition tower_grid : SpatialGrid :=
  let c := epoch_config in
  got (spatial_insert c 58 (FP 100) (FP 98) (spatial_clear c)) (spatial_clear c).

(** A projectile (slot 26) at pixel (70,70) and two enemies of the same
    cell that both overlap it: slot 3 at (80,70) and slot 5 at (75,70).
    Slots 2 and 4 were spawned and freed again.  The enemies are inserted
    in slot order, as the enemy loop does, so slot 5 is ahead of slot 3
    on the cell's list. *)
Definition crowd_pool : Pool :=
  let c := epoch_config in
  let p := pool_after c (entity_alloc c ENT_TYPE_PROJ_PLAYER (entity_initPool c)) in
  let p := pool_after c (entity_alloc c ENT_TYPE_ENEMY_BASIC p) in
  let p := pool_after c (entity_alloc c ENT_TYPE_ENEMY_BASIC p) in
  let p := pool_after c (entity_alloc c ENT_TYPE_ENEMY_BASIC p) in
  let p := pool_after c (entity_alloc c ENT_TYPE_ENEMY_BASIC p) in
  let p := got (entity_free c 2 p) p in
  let p := got (entity_free c 4 p) p in
  place 5 75 70 (place 3 80 70 (place 26 70 70 p)).

Definition crowd_grid : SpatialGrid :=
  let c := epoch_config in
  let g := got (spatial_insert c 3 (FP 80) (FP 70) (spatial_clear c)) (spatial_clear c) in
  got (spatial_insert c 5 (FP 75) (FP 70) g) (spatial_clear c).

(** The skirmish with the enemy of slot 3 moved to pixel (60,70): still
    10 pixels from the projectile, but across the cell boundary at x = 64. *)
Definition neighbour_pool : Pool := place 3 60 70 skirmish_pool.

Definition neighbour_grid : SpatialGrid :=
  let c := epoch_config in
  let g := got (spatial_insert c 3 (FP 60) (FP 70) (spatial_clear c)) (spatial_clear c) in
  got (spatial_insert c 2 (FP 120) (FP 120) g) (spatial_clear c).

(** * The rest of the engine and its callers *)

(** ** Further machine integers and field assignments *)

Definition to_s32 (z : Z) : Z := (z + 2147483648) mod 4294967296 - 2147483648.

Definition set_vy (v : Z) (e : Entity) : Entity :=
  {| flags := flags e; type := type e; timer := timer e; frame := frame e;
     x := x e; y := y e; vx := vx e; vy := v; hp := hp e; data := data e;
     width := width e; height := height e; spriteId := spriteId e;
     collMask := collMask e |}.
Definition set_hp (v : Z) (e : Entity) : Entity :=
  {| flags := flags e; type := type e; timer := timer e; frame := frame e;
     x := x e; y := y e; vx := vx e; vy := vy e; hp := v; data := data e;
     width := width e; height := height e; spriteId := spriteId e;
     collMask := collMask e |}.

Definition ENT_SOLID : Z := 4.
Definition ENT_FRIENDLY : Z := 8.
Definition ENT_PICKUP : Z := 32.
Definition ENT_TYPE_PICKUP_HEALTH : Z := 97.

(** ** entity.c: the pairwise AABB test *)

(** [entity_checkCollision(a, b)]: pixel centres as [s16], inline abs,
    combined half extents [(a->width + b->width) >> 1]. *)
Definition entity_checkCollision (a b : Entity) : bool :=
  let ax := to_s16 (Z.shiftr (x a) 8) in
  let ay := to_s16 (Z.shiftr (y a) 8) in
  let bx := to_s16 (Z.shiftr (x b) 8) in
  let by_ := to_s16 (Z.shiftr (y b) 8) in
  let dx := abs16 (to_s16 (ax - bx)) in
  let dy := abs16 (to_s16 (ay - by_)) in
  let combinedHalfW := to_s16 (Z.shiftr (width a + width b) 1) in
  let combinedHalfH := to_s16 (Z.shiftr (height a + height b) 1) in
  (dx <? combinedHalfW) && (dy <? combinedHalfH).

(** ** entity.c: nearest entity *)

(** [(entities[i].flags & ENT_ACTIVE) && (entities[i].flags & flagMask)]. *)
Definition matches_flags (flagMask : Z) (e : Entity) : bool :=
  is_active e && negb (Z.land (flags e) flagMask =? 0).

(** [abs(dx) + abs(dy)] of [entity_findNearest], on [s32]. *)
Definition manhattan_to (x0 y0 : Z) (e : Entity) : Z :=
  let dx := to_s32 (FP_INT (x e) - x0) in
  let dy := to_s32 (FP_INT (y e) - y0) in
  to_s32 (Z.abs dx + Z.abs dy).

(** The loop [for (u8 i = 0; i < MAX_ENTITIES; i++)] with [n] iterations
    left, carrying [nearest] and [minDist]. *)
Fixpoint findNearest_scan (n : nat) (i x0 y0 flagMask : Z) (p : Pool)
    (nearest minDist : Z) : outcome Z :=
  match n with
  | O => Ok nearest
  | S n' =>
      let! e := load ArrEntities (entities p) i in
      if matches_flags flagMask e then
        let dist := manhattan_to x0 y0 e in
        if dist <? minDist
        then findNearest_scan n' (i + 1) x0 y0 flagMask p (to_u8 i) dist
        else findNearest_scan n' (i + 1) x0 y0 flagMask p nearest minDist
      else findNearest_scan n' (i + 1) x0 y0 flagMask p nearest minDist
  end.

(** [entity_findNearest(x, y, flagMask)].  The [u8] counter reaches
    [MAX_ENTITIES] only when that is at most 255, which the well-formed
    configurations guarantee. *)
Definition entity_findNearest (cfg : Config) (x0 y0 flagMask : Z) (p : Pool)
  : outcome Z :=
  findNearest_scan (Z.to_nat (MAX_ENTITIES cfg)) 0 x0 y0 flagMask p
    255 2147483647.

(** ** entity.c: collision against the tile map *)

(** constants.h *)
Definition MAP_WIDTH_TILES (cfg : Config) : Z := MAP_WIDTH cfg / 8.
Definition MAP_HEIGHT_TILES (cfg : Config) : Z := MAP_HEIGHT cfg / 8.

(** [u8 collisionMap[MAP_HEIGHT_TILES][MAP_WIDTH_TILES / 8]] (main.c): one
    bit per 8x8 tile, rows of bytes. *)
Abbreviation CollisionMap := (list (list Z)).

Definition wf_collisionMap (cfg : Config) (m : CollisionMap) : Prop :=
  length m = Z.to_nat (MAP_HEIGHT_TILES cfg) /\
  Forall (fun row => length row = Z.to_nat (MAP_WIDTH_TILES cfg / 8)) m.

(** [collisionMap[ty][tx >> 3] & (1 << (tx & 7))]; [None] when the byte
    lies outside the declared bounds of the map. *)
Definition tile_solid (m : CollisionMap) (ty tx : Z) : option bool :=
  if (ty <? 0) || (tx <? 0) then None
  else
    match m !! Z.to_nat ty with
    | None => None
    | Some row =>
        match row !! Z.to_nat (Z.shiftr tx 3) with
        | None => None
        | Some byte =>
            Some (negb (Z.land byte (Z.shiftl 1 (Z.land tx 7)) =? 0))
        end
    end.

(** The hitbox in tile coordinates after both clamps, as
    (tLeft, tRight, tTop, tBottom); [None] for the early exit of a hitbox
    that is off the map. *)
Definition tile_rect (cfg : Config) (e : Entity) (newX newY : Z)
  : option (Z * Z * Z * Z) :=
  let halfW := to_s16 (Z.shiftr (width e) 1) in
  let halfH := to_s16 (Z.shiftr (height e) 1) in
  let left := to_s16 (newX - halfW) in
  let right := to_s16 (newX + halfW) in
  let top := to_s16 (newY - halfH) in
  let bottom := to_s16 (newY + halfH) in
  let left := if left <? 0 then 0 else left in
  let top := if top <? 0 then 0 else top in
  let right := if right >=? MAP_WIDTH cfg then to_s16 (MAP_WIDTH cfg - 1)
               else right in
  let bottom := if bottom >=? MAP_HEIGHT cfg then to_s16 (MAP_HEIGHT cfg - 1)
                else bottom in
  if (left >=? MAP_WIDTH cfg) || (right <? 0) ||
     (top >=? MAP_HEIGHT cfg) || (bottom <? 0)
  then None
  else
    let tLeft := to_u16 (Z.shiftr left 3) in
    let tRight := to_u16 (Z.shiftr right 3) in
    let tTop := to_u16 (Z.shiftr top 3) in
    let tBottom := to_u16 (Z.shiftr bottom 3) in
    let tLeft := if tLeft >=? MAP_WIDTH_TILES cfg
                 then to_u16 (MAP_WIDTH_TILES cfg - 1) else tLeft in
    let tRight := if tRight >=? MAP_WIDTH_TILES cfg
                  then to_u16 (MAP_WIDTH_TILES cfg - 1) else tRight in
    let tTop := if tTop >=? MAP_HEIGHT_TILES cfg
                then to_u16 (MAP_HEIGHT_TILES cfg - 1) else tTop in
    let tBottom := if tBottom >=? MAP_HEIGHT_TILES cfg
                   then to_u16 (MAP_HEIGHT_TILES cfg - 1) else tBottom in
    Some (tLeft, tRight, tTop, tBottom).

(** [for (u16 tx = tLeft; tx <= tRight; tx++)] with [n] iterations left;
    [Some true] is the early [return TRUE]. *)
Fixpoint tile_row_scan (n : nat) (m : CollisionMap) (ty tx : Z) : option bool :=
  match n with
  | O => Some false
  | S n' =>
      match tile_solid m ty tx with
      | None => None
      | Some true => Some true
      | Some false => tile_row_scan n' m ty (tx + 1)
      end
  end.

(** [for (u16 ty = tTop; ty <= tBottom; ty++)] with [k] iterations left. *)
Fixpoint tile_rows_scan (k : nat) (m : CollisionMap) (tLeft tRight ty : Z)
  : option bool :=
  match k with
  | O => Some false
  | S k' =>
      match tile_row_scan (Z.to_nat (tRight - tLeft + 1)) m ty tLeft with
      | None => None
      | Some true => Some true
      | Some false => tile_rows_scan k' m tLeft tRight (ty + 1)
      end
  end.

(** [entity_checkTileCollision(e, newX, newY)]; [None] when the map is
    read outside its declared bounds. *)
Definition entity_checkTileCollision (cfg : Config) (m : CollisionMap)
    (e : Entity) (newX newY : Z) : option bool :=
  match tile_rect cfg e newX newY with
  | None => Some false
  | Some (tLeft, tRight, tTop, tBottom) =>
      tile_rows_scan (Z.to_nat (tBottom - tTop + 1)) m tLeft tRight tTop
  end.

(** ** Callers: spawning (pickups.c, main.c) *)

Definition PICKUP_XP_BIG : Z := 1.
Definition PICKUP_HEALTH : Z := 2.
Definition TOWER_X : Z := 640.
Definition TOWER_Y : Z := 448.

(** [pickups_spawn(x, y, pickupType)]. *)
Definition pickups_spawn (cfg : Config) (x0 y0 pickupType : Z) (p : Pool)
  : outcome Pool :=
  let! r := entity_alloc cfg ENT_TYPE_PICKUP_XP p in
  let '(slot, p1) := r in
  if slot <? 0 then Ok p1
  else
    let i := to_u8 slot in
    let! e := load ArrEntities (entities p1) i in
    let e := set_flags (Z.lor (Z.lor ENT_ACTIVE ENT_VISIBLE) ENT_PICKUP) e in
    let xpValue := if pickupType =? PICKUP_XP_BIG then 50 else 10 in
    let e := if pickupType =? PICKUP_HEALTH
             then set_type ENT_TYPE_PICKUP_HEALTH e
             else set_type ENT_TYPE_PICKUP_XP e in
    let e := set_x (to_s32 (FP x0)) e in
    let e := set_y (to_s32 (FP y0)) e in
    let e := set_vx 0 e in
    let e := set_vy 0 e in
    let e := set_timer 0 e in
    let e := set_data (to_u16 xpValue) e in
    let! es := store ArrEntities (entities p1) i e in
    Ok {| entities := es; entityCount := entityCount p1 |}.

(** [tower_spawn()] of main.c; the sprite handle it resets is not part of
    the pool. *)
Definition tower_spawn (cfg : Config) (p : Pool) : outcome Pool :=
  let! r := entity_alloc cfg ENT_TYPE_TOWER_CENTER p in
  let '(slot, p1) := r in
  if slot <? 0 then Ok p1
  else
    let! e := load ArrEntities (entities p1) slot in
    let e := set_flags (Z.lor (Z.lor (Z.lor ENT_ACTIVE ENT_VISIBLE) ENT_SOLID)
                          ENT_FRIENDLY) e in
    let e := set_x (to_s32 (FP TOWER_X)) e in
    let e := set_y (to_s32 (FP TOWER_Y)) e in
    let e := set_width (to_u8 (FP 50)) e in
    let e := set_height (to_u8 (FP 50)) e in
    let e := set_hp (to_s16 200) e in
    let! es := store ArrEntities (entities p1) slot e in
    Ok {| entities := es; entityCount := entityCount p1 |}.

(** ** Sequences of calls *)

(** [n] calls of [entity_alloc(type)] in a row, with the slots they
    return. *)
Fixpoint alloc_repeat (cfg : Config) (n : nat) (ty : Z) (p : Pool)
  : outcome (list Z * Pool) :=
  match n with
  | O => Ok ([], p)
  | S n' =>
      let! r := entity_alloc cfg ty p in
      let! rest := alloc_repeat cfg n' ty (snd r) in
      Ok (fst r :: fst rest, snd rest)
  end.

(** The calls [spatial_insert(slot, x, y)] of one frame, in order. *)
Fixpoint insert_all (cfg : Config) (l : list (Z * Z * Z)) (g : SpatialGrid)
  : outcome SpatialGrid :=
  match l with
  | [] => Ok g
  | (slot, x0, y0) :: l' =>
      let! g1 := spatial_insert cfg slot x0 y0 g in
      insert_all cfg l' g1
  end.

(** The slots inserted at a position of cell [c], most recent first. *)
Definition cell_members (cfg : Config) (c : Z) (l : list (Z * Z * Z)) : list Z :=
  rev (List.map (fun i => fst (fst i))
         (List.filter
            (fun i => spatial_getCellIndex cfg (snd (fst i)) (snd i) =? c) l)).

Definition inserted_slots (l : list (Z * Z * Z)) : list Z :=
  List.map (fun i => fst (fst i)) l.

(** Every cell's list is the list of the slots inserted at a position of
    that cell, most recent first, and ends. *)
Definition cell_lists (cfg : Config) (g : SpatialGrid) (l : list (Z * Z * Z))
  : Prop :=
  forall c, 0 <= c < SPATIAL_GRID_CELLS ->
    exists head,
      load ArrFirstInCell (firstInCell g) c = Ok head /\
      chain g head (cell_members cfg c l).

(** The tile map after [memset(collisionMap, 0, sizeof(collisionMap))]
    (main.c), and with the single tile (8, 8) made solid. *)
Definition empty_collisionMap (cfg : Config) : CollisionMap :=
  replicate (Z.to_nat (MAP_HEIGHT_TILES cfg))
    (replicate (Z.to_nat (MAP_WIDTH_TILES cfg / 8)) 0).

Definition one_tile_collisionMap : CollisionMap :=
  <[8%nat := <[1%nat := 1]> (replicate 20 0)]> (empty_collisionMap epoch_config).

(** * Properties *)

(** ** Checked accesses *)

Lemma load_Ok {A : Type} arr (l : list A) i a :
  load arr l i = Ok a <-> 0 <= i /\ l !! Z.to_nat i = Some a.
Proof.
  unfold load. destruct (Z.ltb_spec i 0) as [Hi|Hi].
  - split; [discriminate | lia].
  - destruct (l !! Z.to_nat i) as [b|] eqn:E.
    + split; [intros [= ->]; auto | intros [_ [= ->]]; reflexivity].
    + split; [discriminate | intros [_ H]; discriminate].
Qed.

Lemma store_Ok {A : Type} arr (l : list A) i a l' :
  store arr l i a = Ok l' <->
  0 <= i /\ (Z.to_nat i < length l)%nat /\ l' = <[Z.to_nat i := a]> l.
Proof.
  unfold store. destruct (Z.ltb_spec i 0) as [Hi|Hi].
  - split; [discriminate | lia].
  - destruct (Nat.ltb_spec (Z.to_nat i) (length l)) as [Hl|Hl].
    + split; [intros [= <-]; auto | intros (_ & _ & ->); reflexivity].
    + split; [discriminate | lia].
Qed.

Lemma store_after_load {A : Type} arr (l : list A) i a b :
  load arr l i = Ok a -> store arr l i b = Ok (<[Z.to_nat i := b]> l).
Proof.
  intros [Hi Hl]%load_Ok. apply store_Ok. repeat split; auto.
  eapply lookup_lt_Some; eauto.
Qed.

Lemma load_insert_eq {A : Type} arr (l : list A) i a b :
  load arr l i = Ok a -> load arr (<[Z.to_nat i := b]> l) i = Ok b.
Proof.
  intros [Hi Hl]%load_Ok. apply load_Ok. split; auto.
  apply list_lookup_insert_eq. eapply lookup_lt_Some; eauto.
Qed.

Lemma load_in_bounds {A : Type} arr (l : list A) i :
  0 <= i -> (Z.to_nat i < length l)%nat -> exists a, load arr l i = Ok a.
Proof.
  intros Hi Hl. destruct (lookup_lt_is_Some_2 l (Z.to_nat i) Hl) as [a Ha].
  exists a. apply load_Ok. auto.
Qed.

Lemma load_out_of_bounds {A : Type} arr (l : list A) i :
  (length l <= Z.to_nat i)%nat -> load arr l i = OutOfBounds arr i.
Proof.
  intros Hl. unfold load. destruct (i <? 0); [reflexivity|].
  rewrite (lookup_ge_None_2 l _ Hl). reflexivity.
Qed.

Lemma store_out_of_bounds {A : Type} arr (l : list A) i a :
  (length l <= Z.to_nat i)%nat -> store arr l i a = OutOfBounds arr i.
Proof.
  intros Hl. unfold store. destruct (i <? 0); [reflexivity|].
  destruct (Nat.ltb_spec (Z.to_nat i) (length l)); [lia | reflexivity].
Qed.

(** ** Machine integers *)

Lemma to_u8_small z : 0 <= z < 256 -> to_u8 z = z.
Proof. intros H. unfold to_u8. apply Z.mod_small. lia. Qed.

Lemma to_u8_range z : 0 <= to_u8 z < 256.
Proof. unfold to_u8. apply Z.mod_pos_bound. lia. Qed.

Lemma to_u16_small z : 0 <= z < 65536 -> to_u16 z = z.
Proof. intros H. unfold to_u16. apply Z.mod_small. lia. Qed.

Lemma to_s8_small z : -128 <= z < 128 -> to_s8 z = z.
Proof. intros H. unfold to_s8. rewrite Z.mod_small; lia. Qed.

Lemma to_s16_small z : -32768 <= z < 32768 -> to_s16 z = z.
Proof. intros H. unfold to_s16. rewrite Z.mod_small; lia. Qed.

Lemma to_s16_range z : -32768 <= to_s16 z < 32768.
Proof.
  unfold to_s16. pose proof (Z.mod_pos_bound (z + 32768) 65536). lia.
Qed.

Lemma land_1_mod z : Z.land z 1 = z mod 2.
Proof. change 1 with (Z.ones 1) at 1. rewrite Z.land_ones by lia. reflexivity. Qed.

(** ** Freeing *)

Lemma is_active_cleared e : is_active (set_type ENT_TYPE_NONE (set_flags 0 e)) = false.
Proof. reflexivity. Qed.

Lemma entity_free_inactive cfg slot p e :
  load ArrEntities (entities p) slot = Ok e -> is_active e = false ->
  entity_free cfg slot p = Ok p.
Proof.
  intros Hl Ha. unfold entity_free. destruct (slot <? MAX_ENTITIES cfg); [|reflexivity].
  rewrite Hl. simpl. rewrite Ha. reflexivity.
Qed.

Lemma entity_free_out_of_range cfg slot p :
  MAX_ENTITIES cfg <= slot -> entity_free cfg slot p = Ok p.
Proof.
  intros H. unfold entity_free.
  destruct (Z.ltb_spec slot (MAX_ENTITIES cfg)); [lia | reflexivity].
Qed.

(** Whatever a successful free returns is a fixed point of freeing the
    same slot. *)
Lemma entity_free_stable cfg slot p p1 :
  entity_free cfg slot p = Ok p1 -> entity_free cfg slot p1 = Ok p1.
Proof.
  intros H. destruct (Z.ltb_spec slot (MAX_ENTITIES cfg)) as [Hs|Hs].
  2:{ apply entity_free_out_of_range. lia. }
  unfold entity_free in H.
  destruct (Z.ltb_spec slot (MAX_ENTITIES cfg)); [|lia].
  destruct (load ArrEntities (entities p) slot) as [e| |] eqn:Hload;
    simpl in H; try discriminate.
  destruct (is_active e) eqn:Hact.
  - rewrite (store_after_load _ _ _ _ _ Hload) in H. simpl in H.
    injection H as <-.
    eapply entity_free_inactive.
    + simpl. eapply load_insert_eq; eauto.
    + apply is_active_cleared.
  - injection H as <-. eapply entity_free_inactive; eauto.
Qed.

(** C8. Freeing is idempotent: for every slot and every pool state,
    [entity_free(slot)] called twice in a row leaves exactly the pool
    (entity array and [entityCount]) that one call leaves, and faults
    exactly when one call does. *)
Theorem entity_free_idempotent (cfg : Config) (slot : Z) (p : Pool) :
  (let! p1 := entity_free cfg slot p in entity_free cfg slot p1)
  = entity_free cfg slot p.
Proof.
  destruct (entity_free cfg slot p) as [p1| |] eqn:H; simpl; try reflexivity.
  eapply entity_free_stable; eauto.
Qed.

(** ** Allocation *)

Lemma is_active_alloc_init ty e : is_active (alloc_init ty e) = true.
Proof.
  unfold alloc_init. destruct (default_hitbox ty) as [[w h] m]. reflexivity.
Qed.

(** What the scan of [n] slots from [i] returns: the exhaustion sentinel
    when all of them are active, and otherwise the first inactive one,
    initialised. *)
Lemma alloc_scan_spec n : forall i ty p,
  0 <= i -> (Z.to_nat i + n <= length (entities p))%nat ->
  (alloc_scan n i ty p = Ok (to_s8 (-1), p) /\
   forall j, i <= j < i + Z.of_nat n -> slot_active p j = true)
  \/
  (exists k e,
     i <= k < i + Z.of_nat n /\
     entities p !! Z.to_nat k = Some e /\ is_active e = false /\
     (forall j, i <= j < k -> slot_active p j = true) /\
     alloc_scan n i ty p =
       Ok (to_s8 k,
           {| entities := <[Z.to_nat k := alloc_init ty e]> (entities p);
              entityCount := to_u8 (entityCount p + 1) |})).
Proof.
  induction n as [|n IH]; intros i ty p Hi Hlen.
  - left. split; [reflexivity | intros j Hj; lia].
  - destruct (load_in_bounds ArrEntities (entities p) i Hi ltac:(lia)) as [e He].
    simpl. rewrite He. simpl.
    pose proof (proj1 (load_Ok _ _ _ _) He) as [_ Hlk].
    destruct (is_active e) eqn:Hact.
    + destruct (IH (i + 1) ty p ltac:(lia) ltac:(lia)) as [[Hr Hall]|(k & e' & Hk & Hlk' & Hin & Hbefore & Hr)].
      * left. split; [exact Hr|].
        intros j Hj. destruct (Z.eq_dec j i) as [->|Hne].
        -- unfold slot_active. rewrite Hlk. exact Hact.
        -- apply Hall. lia.
      * right. exists k, e'. repeat split; try lia; auto.
        intros j Hj. destruct (Z.eq_dec j i) as [->|Hne].
        -- unfold slot_active. rewrite Hlk. exact Hact.
        -- apply Hbefore. lia.
    + right. exists i, e. rewrite (store_after_load _ _ _ _ _ He). simpl.
      repeat split; try lia; auto.
Qed.

(** Under a well-formed configuration the [u8] range variables hold the
    configured bounds, which lie inside the array. *)
Lemma slot_range_bounds cfg ty s e :
  wf_config cfg -> slot_range cfg ty = (s, e) ->
  0 <= s <= e /\ e <= MAX_ENTITIES cfg /\ e <= 128.
Proof.
  unfold wf_config, slot_range. intros H Hr.
  repeat match type of Hr with
  | (if ?c then _ else _) = _ => destruct c
  end; injection Hr as <- <-; rewrite !to_u8_small by lia; lia.
Qed.

Lemma entity_alloc_spec cfg ty p s e :
  wf_config cfg -> wf_pool cfg p -> slot_range cfg ty = (s, e) ->
  (entity_alloc cfg ty p = Ok (-1, p) /\
   forall j, s <= j < e -> slot_active p j = true)
  \/
  (exists k e0,
     s <= k < e /\
     entities p !! Z.to_nat k = Some e0 /\ is_active e0 = false /\
     (forall j, s <= j < k -> slot_active p j = true) /\
     entity_alloc cfg ty p =
       Ok (k, {| entities := <[Z.to_nat k := alloc_init ty e0]> (entities p);
                 entityCount := to_u8 (entityCount p + 1) |})).
Proof.
  intros Hcfg Hp Hr. unfold entity_alloc. rewrite Hr.
  destruct (slot_range_bounds _ _ _ _ Hcfg Hr) as (Hs & He & He').
  unfold wf_pool in Hp.
  destruct (alloc_scan_spec (Z.to_nat (e - s)) s ty p ltac:(lia) ltac:(lia))
    as [[Hres Hall]|(k & e0 & Hk & Hlk & Hin & Hbefore & Hres)].
  - left. split; [exact Hres|]. intros j Hj. apply Hall. lia.
  - right. exists k, e0. rewrite Hres, to_s8_small by lia.
    repeat split; auto; lia.
Qed.

(** *** The count of active entities *)

Lemma count_active_insert (l : list Entity) : forall i e e',
  l !! i = Some e ->
  count_active (<[i := e']> l) =
  count_active l - Z.b2z (is_active e) + Z.b2z (is_active e').
Proof.
  unfold count_active.
  induction l as [|a l IH]; intros i e e' Hl; [discriminate|].
  destruct i as [|i]; simpl in *.
  - injection Hl as ->. destruct (is_active e), (is_active e'); simpl; lia.
  - specialize (IH i e e' Hl). destruct (is_active a); simpl; lia.
Qed.

Lemma count_active_bounds (l : list Entity) :
  0 <= count_active l <= Z.of_nat (length l).
Proof.
  unfold count_active. pose proof (filter_length_le is_active l). lia.
Qed.

Lemma count_active_replicate n : count_active (replicate n zero_entity) = 0.
Proof. unfold count_active. induction n; simpl; auto. Qed.

Lemma count_active_pos (l : list Entity) i e :
  l !! i = Some e -> is_active e = true -> 1 <= count_active l.
Proof.
  intros Hl Ha.
  pose proof (count_active_insert l i e zero_entity Hl) as H.
  pose proof (count_active_bounds (<[i := zero_entity]> l)).
  rewrite Ha in H. simpl in H. lia.
Qed.

Lemma count_active_room (l : list Entity) i e :
  l !! i = Some e -> is_active e = false ->
  count_active l + 1 <= Z.of_nat (length l).
Proof.
  intros Hl Ha.
  pose proof (count_active_insert l i e (alloc_init 0 e) Hl) as H.
  pose proof (count_active_bounds (<[i := alloc_init 0 e]> l)) as Hb.
  rewrite length_insert in Hb.
  rewrite Ha, is_active_alloc_init in H. simpl in H. lia.
Qed.

(** *** Reachable pool states *)

Lemma pool_inv_init cfg : pool_inv cfg (entity_initPool cfg).
Proof.
  split.
  - unfold wf_pool. simpl. apply length_replicate.
  - simpl. symmetry. apply count_active_replicate.
Qed.

Lemma pool_inv_alloc cfg ty p slot p' :
  wf_config cfg -> pool_inv cfg p ->
  entity_alloc cfg ty p = Ok (slot, p') -> pool_inv cfg p'.
Proof.
  intros Hcfg [Hwf Hcnt] Halloc.
  destruct (slot_range cfg ty) as [s e] eqn:Hr.
  destruct (entity_alloc_spec cfg ty p s e Hcfg Hwf Hr)
    as [[Hres _]|(k & e0 & Hk & Hlk & Hin & _ & Hres)];
    rewrite Hres in Halloc; injection Halloc as <- <-.
  - split; assumption.
  - split.
    + unfold wf_pool in *. simpl. rewrite length_insert. exact Hwf.
    + simpl. rewrite (count_active_insert _ _ _ _ Hlk), Hin, is_active_alloc_init.
      simpl. pose proof (count_active_room _ _ _ Hlk Hin).
      pose proof (count_active_bounds (entities p)).
      unfold wf_pool in Hwf. unfold wf_config in Hcfg.
      rewrite to_u8_small; lia.
Qed.

Lemma pool_inv_free cfg slot p p' :
  wf_config cfg -> pool_inv cfg p ->
  entity_free cfg slot p = Ok p' -> pool_inv cfg p'.
Proof.
  intros Hcfg [Hwf Hcnt] Hfree. unfold entity_free in Hfree.
  destruct (slot <? MAX_ENTITIES cfg); [|injection Hfree as <-; split; assumption].
  destruct (load ArrEntities (entities p) slot) as [e| |] eqn:Hload;
    simpl in Hfree; try discriminate.
  destruct (is_active e) eqn:Hact; [|injection Hfree as <-; split; assumption].
  rewrite (store_after_load _ _ _ _ _ Hload) in Hfree. simpl in Hfree.
  injection Hfree as <-.
  apply load_Ok in Hload as [Hslot Hlk].
  split.
  - unfold wf_pool in *. simpl. rewrite length_insert. exact Hwf.
  - simpl. rewrite (count_active_insert _ _ _ _ Hlk), Hact, is_active_cleared.
    simpl. pose proof (count_active_pos _ _ _ Hlk Hact).
    pose proof (count_active_bounds (entities p)).
    unfold wf_pool in Hwf. unfold wf_config in Hcfg.
    destruct (Z.ltb_spec 0 (entityCount p)); [|lia].
    rewrite to_u8_small; lia.
Qed.

Lemma reachable_inv cfg p : wf_config cfg -> reachable cfg p -> pool_inv cfg p.
Proof.
  intros Hcfg Hr. induction Hr.
  - apply pool_inv_init.
  - eapply pool_inv_alloc; eauto.
  - eapply pool_inv_free; eauto.
Qed.

Lemma entity_alloc_total cfg ty p :
  wf_config cfg -> wf_pool cfg p -> exists r, entity_alloc cfg ty p = Ok r.
Proof.
  intros Hcfg Hwf. destruct (slot_range cfg ty) as [s e] eqn:Hr.
  destruct (entity_alloc_spec cfg ty p s e Hcfg Hwf Hr)
    as [[Hres _]|(k & e0 & _ & _ & _ & _ & Hres)]; rewrite Hres; eauto.
Qed.

Lemma entity_free_total cfg slot p :
  wf_pool cfg p -> 0 <= slot -> exists p', entity_free cfg slot p = Ok p'.
Proof.
  intros Hwf Hslot. unfold entity_free.
  destruct (Z.ltb_spec slot (MAX_ENTITIES cfg)) as [Hlt|Hge]; [|eauto].
  unfold wf_pool in Hwf.
  destruct (load_in_bounds ArrEntities (entities p) slot Hslot ltac:(lia)) as [e He].
  rewrite He. simpl. destruct (is_active e); [|eauto].
  rewrite (store_after_load _ _ _ _ _ He). simpl. eauto.
Qed.

(** ** Concrete pools *)

Lemma wf_epoch_config : wf_config epoch_config.
Proof. unfold wf_config. simpl. lia. Qed.

Lemma wf_four_slot_config : wf_config four_slot_config.
Proof. unfold wf_config. simpl. lia. Qed.

Lemma wf_pool_place cfg slot px py p : wf_pool cfg p -> wf_pool cfg (place slot px py p).
Proof. unfold wf_pool, place. simpl. rewrite length_alter. auto. Qed.

Lemma wf_pool_push cfg slot v p : wf_pool cfg p -> wf_pool cfg (push slot v p).
Proof. unfold wf_pool, push. simpl. rewrite length_alter. auto. Qed.

Lemma wf_player_pool : wf_pool epoch_config player_pool.
Proof. reflexivity. Qed.

Lemma wf_stale_pool : wf_pool epoch_config stale_pool.
Proof. reflexivity. Qed.

(** ** The pool: main results *)

(** C9. In every state reached from [entity_initPool] by calls of
    [entity_alloc] and [entity_free], [entityCount] is the number of
    entities whose [ENT_ACTIVE] flag is set. *)
Theorem entityCount_counts_active (cfg : Config) (p : Pool) :
  wf_config cfg -> reachable cfg p ->
  entityCount p = count_active (entities p).
Proof. intros Hcfg Hr. apply (reachable_inv cfg p Hcfg Hr). Qed.

Lemma reachable_cycled_pool : reachable epoch_config cycled_pool.
Proof.
  eapply (reach_free epoch_config _ 2);
    [eapply (reach_alloc epoch_config _ ENT_TYPE_PROJ_PLAYER 26);
      [eapply (reach_alloc epoch_config _ ENT_TYPE_ENEMY_BASIC 2);
        [apply reach_init | unfold is_u8, ENT_TYPE_ENEMY_BASIC; lia
        | vm_compute; reflexivity]
      | unfold is_u8, ENT_TYPE_PROJ_PLAYER; lia | vm_compute; reflexivity]
    | unfold is_u8; lia | vm_compute; reflexivity].
Defined.

Lemma entityCount_counts_active_witness :
  wf_config epoch_config /\ reachable epoch_config cycled_pool /\
  entityCount cycled_pool = count_active (entities cycled_pool).
Proof.
  split; [unfold wf_config; simpl; lia|].
  split; [exact reachable_cycled_pool|].
  apply (entityCount_counts_active epoch_config cycled_pool).
  - unfold wf_config; simpl; lia.
  - exact reachable_cycled_pool.
Defined.

Example cycled_pool_count :
  entityCount cycled_pool = 1 /\ count_active (entities cycled_pool) = 1.
Proof. split; reflexivity. Qed.

(** C5. [entity_alloc] always returns; it returns either the exhaustion
    sentinel -1, leaving the pool as it was, when every slot of the type's
    range is active, or the lowest-indexed inactive slot of that range, and
    never a slot outside the range.  In a build whose projectile range is
    the four slots [0,4), four allocations return 0, 1, 2, 3 in that order,
    the fifth returns -1, and after freeing any one of the four slots the
    next allocation returns exactly that slot. *)
Theorem entity_alloc_first_fit :
  (forall cfg ty p s e,
     wf_config cfg -> wf_pool cfg p -> slot_range cfg ty = (s, e) ->
     exists slot p',
       entity_alloc cfg ty p = Ok (slot, p') /\
       ((slot = -1 /\ p' = p /\
         forall j, s <= j < e -> slot_active p j = true)
        \/
        (s <= slot < e /\ slot_active p slot = false /\
         forall j, s <= j < slot -> slot_active p j = true)))
  /\
  (let c := four_slot_config in
   let ty := ENT_TYPE_PROJ_PLAYER in
   slot_range c ty = (0, 4) /\
   exists p1 p2 p3 p4,
     entity_alloc c ty (entity_initPool c) = Ok (0, p1) /\
     entity_alloc c ty p1 = Ok (1, p2) /\
     entity_alloc c ty p2 = Ok (2, p3) /\
     entity_alloc c ty p3 = Ok (3, p4) /\
     entity_alloc c ty p4 = Ok (-1, p4) /\
     forall k, 0 <= k < 4 ->
       exists p5 p6,
         entity_free c k p4 = Ok p5 /\ entity_alloc c ty p5 = Ok (k, p6)).
Proof.
  split.
  - intros cfg ty p s e Hcfg Hwf Hr.
    destruct (entity_alloc_spec cfg ty p s e Hcfg Hwf Hr)
      as [[Hres Hall]|(k & e0 & Hk & Hlk & Hin & Hbefore & Hres)].
    + exists (-1), p. split; [exact Hres|]. left. auto.
    + eexists k, _. split; [exact Hres|]. right.
      split; [exact Hk|]. split; [|exact Hbefore].
      unfold slot_active. rewrite Hlk. exact Hin.
  - cbv zeta. split; [reflexivity|].
    do 4 eexists.
    split; [vm_compute; reflexivity|].
    split; [vm_compute; reflexivity|].
    split; [vm_compute; reflexivity|].
    split; [vm_compute; reflexivity|].
    split; [vm_compute; reflexivity|].
    intros k Hk.
    assert (Hc : k = 0 \/ k = 1 \/ k = 2 \/ k = 3) by lia.
    destruct Hc as [->|[->|[->| ->]]];
      do 2 eexists; (split; [vm_compute; reflexivity|]); vm_compute; reflexivity.
Qed.

Lemma entity_alloc_first_fit_witness :
  wf_config epoch_config /\ wf_pool epoch_config cycled_pool /\
  slot_range epoch_config ENT_TYPE_ENEMY_BASIC = (2, 26) /\
  exists slot p',
    entity_alloc epoch_config ENT_TYPE_ENEMY_BASIC cycled_pool = Ok (slot, p') /\
    ((slot = -1 /\ p' = cycled_pool /\
      forall j, 2 <= j < 26 -> slot_active cycled_pool j = true)
     \/
     (2 <= slot < 26 /\ slot_active cycled_pool slot = false /\
      forall j, 2 <= j < slot -> slot_active cycled_pool j = true)).
Proof.
  split; [unfold wf_config; simpl; lia|].
  split; [reflexivity|].
  split; [reflexivity|].
  apply (proj1 entity_alloc_first_fit epoch_config ENT_TYPE_ENEMY_BASIC
           cycled_pool 2 26).
  - unfold wf_config; simpl; lia.
  - reflexivity.
  - reflexivity.
Defined.

(** The writes of a successful [entity_alloc], field by field.  The slot
    returned is of the range, is now active ([ENT_ACTIVE | ENT_VISIBLE])
    and carries the type, the default width, height and collision mask of
    the type, and a zero [data] and [timer].  No assignment is made to [vx]
    and [vy] (nor to [x], [y], [hp], [frame], [spriteId]): whatever the
    previous occupant of the slot left there is still there, which is the
    defect of the allocator in its general form. *)
Lemma entity_alloc_postcondition (cfg : Config) (ty : Z) (p : Pool) (s e k : Z) :
  wf_config cfg -> wf_pool cfg p -> slot_range cfg ty = (s, e) ->
  s <= k < e -> slot_active p k = false ->
  exists slot p' e0 e1,
    entity_alloc cfg ty p = Ok (slot, p') /\ s <= slot < e /\
    entities p !! Z.to_nat slot = Some e0 /\
    entities p' !! Z.to_nat slot = Some e1 /\
    is_active e1 = true /\
    flags e1 = Z.lor ENT_ACTIVE ENT_VISIBLE /\ type e1 = ty /\
    (width e1, height e1, collMask e1) = default_hitbox ty /\
    data e1 = 0 /\ timer e1 = 0 /\
    vx e1 = vx e0 /\ vy e1 = vy e0 /\
    x e1 = x e0 /\ y e1 = y e0 /\ hp e1 = hp e0 /\
    frame e1 = frame e0 /\ spriteId e1 = spriteId e0.
Proof.
  intros Hcfg Hwf Hr Hk Hfree.
  destruct (entity_alloc_spec cfg ty p s e Hcfg Hwf Hr)
    as [[_ Hall]|(i & e0 & Hi & Hlk & Hin & _ & Hres)].
  - rewrite (Hall k Hk) in Hfree. discriminate.
  - eexists i, _, e0, (alloc_init ty e0). split; [exact Hres|].
    split; [exact Hi|]. split; [exact Hlk|].
    split; [simpl; apply list_lookup_insert_eq; eapply lookup_lt_Some; eauto|].
    split; [apply is_active_alloc_init|].
    unfold alloc_init. destruct (default_hitbox ty) as [[w h] m].
    simpl. repeat split.
Qed.

Lemma entity_alloc_postcondition_witness :
  wf_config epoch_config /\ wf_pool epoch_config stale_pool /\
  slot_range epoch_config ENT_TYPE_ENEMY_BASIC = (2, 26) /\
  2 <= 2 < 26 /\ slot_active stale_pool 2 = false /\
  exists slot p' e0 e1,
    entity_alloc epoch_config ENT_TYPE_ENEMY_BASIC stale_pool = Ok (slot, p') /\
    2 <= slot < 26 /\
    entities stale_pool !! Z.to_nat slot = Some e0 /\
    entities p' !! Z.to_nat slot = Some e1 /\
    is_active e1 = true /\
    flags e1 = Z.lor ENT_ACTIVE ENT_VISIBLE /\ type e1 = ENT_TYPE_ENEMY_BASIC /\
    (width e1, height e1, collMask e1) = default_hitbox ENT_TYPE_ENEMY_BASIC /\
    data e1 = 0 /\ timer e1 = 0 /\
    vx e1 = vx e0 /\ vy e1 = vy e0 /\
    x e1 = x e0 /\ y e1 = y e0 /\ hp e1 = hp e0 /\
    frame e1 = frame e0 /\ spriteId e1 = spriteId e0.
Proof.
  split; [unfold wf_config; simpl; lia|].
  split; [reflexivity|].
  split; [reflexivity|].
  split; [lia|].
  split; [reflexivity|].
  apply (entity_alloc_postcondition epoch_config ENT_TYPE_ENEMY_BASIC
           stale_pool 2 26 2).
  - unfold wf_config; simpl; lia.
  - reflexivity.
  - reflexivity.
  - lia.
  - reflexivity.
Defined.

(** The postcondition with a zeroed velocity does not hold of
    [entity_alloc]: in the pool left by spawning an enemy, giving it the
    velocity 256 and freeing it, the next enemy allocation returns slot 2
    with [vx] still 256. *)
Lemma entity_alloc_keeps_velocity :
  ~ (forall ty p s e k,
       is_u8 ty -> wf_pool epoch_config p ->
       slot_range epoch_config ty = (s, e) ->
       s <= k < e -> slot_active p k = false ->
       exists slot p' e1,
         entity_alloc epoch_config ty p = Ok (slot, p') /\
         entities p' !! Z.to_nat slot = Some e1 /\
         is_active e1 = true /\
         (width e1, height e1, collMask e1) = default_hitbox ty /\
         data e1 = 0 /\ vx e1 = 0 /\ vy e1 = 0 /\ timer e1 = 0).
Proof.
  intros H.
  destruct (H ENT_TYPE_ENEMY_BASIC stale_pool 2 26 2)
    as (slot & p' & e1 & Ha & Hl & _ & _ & _ & Hvx & _).
  - unfold is_u8, ENT_TYPE_ENEMY_BASIC. lia.
  - reflexivity.
  - reflexivity.
  - lia.
  - reflexivity.
  - vm_compute in Ha. injection Ha as <- <-.
    vm_compute in Hl. injection Hl as <-.
    simpl in Hvx. discriminate.
Qed.

(** C4 at the failing input.  An enemy is spawned in slot 2, moves with
    [vx] = 256 and is freed ([stale_pool]); slot 2 is then free and the next
    [entity_alloc(ENT_TYPE_ENEMY_BASIC)] returns it.  The slot comes back
    active, with the default 24x24 box and [COLL_ENEMY] mask and with
    [data] and [timer] zeroed, but its velocity is not zeroed: [vx] is
    still the 256 of the previous enemy. *)
Theorem entity_alloc_stale_velocity :
  slot_active stale_pool 2 = false /\
  exists p' e0 e1,
    entity_alloc epoch_config ENT_TYPE_ENEMY_BASIC stale_pool = Ok (2, p') /\
    entities stale_pool !! 2%nat = Some e0 /\ vx e0 = 256 /\
    entities p' !! 2%nat = Some e1 /\
    is_active e1 = true /\
    (width e1, height e1, collMask e1) = (24, 24, COLL_ENEMY) /\
    data e1 = 0 /\ timer e1 = 0 /\
    vx e1 = 256 /\ vx e1 <> 0.
Proof.
  split; [vm_compute; reflexivity|].
  do 3 eexists.
  split; [vm_compute; reflexivity|].
  split; [vm_compute; reflexivity|].
  split; [reflexivity|].
  split; [vm_compute; reflexivity|].
  split; [reflexivity|]. split; [reflexivity|].
  split; [reflexivity|]. split; [reflexivity|].
  split; [reflexivity | discriminate].
Qed.

(** C3, as the code has it.  [entity_free] has no guard for the reserved
    player slot: called on [SLOT_PLAYER] while that slot is active, it clears
    the slot's [flags] and [type] as for any other slot, leaves the slot's
    other fields and every other slot as they were, and decrements
    [entityCount] when it is positive.  The slot is left unchanged only when
    it is already inactive. *)
Theorem entity_free_player_slot (cfg : Config) (p : Pool) (e : Entity) :
  0 <= SLOT_PLAYER cfg < MAX_ENTITIES cfg ->
  entities p !! Z.to_nat (SLOT_PLAYER cfg) = Some e ->
  (is_active e = true ->
   exists p' e',
     entity_free cfg (SLOT_PLAYER cfg) p = Ok p' /\
     entities p' !! Z.to_nat (SLOT_PLAYER cfg) = Some e' /\
     is_active e' = false /\ flags e' = 0 /\ type e' = ENT_TYPE_NONE /\
     timer e' = timer e /\ frame e' = frame e /\ x e' = x e /\ y e' = y e /\
     vx e' = vx e /\ vy e' = vy e /\ hp e' = hp e /\ data e' = data e /\
     width e' = width e /\ height e' = height e /\
     spriteId e' = spriteId e /\ collMask e' = collMask e /\
     (forall j, j <> Z.to_nat (SLOT_PLAYER cfg) ->
                entities p' !! j = entities p !! j) /\
     entityCount p' = (if 0 <? entityCount p then to_u8 (entityCount p - 1)
                       else entityCount p))
  /\
  (is_active e = false -> entity_free cfg (SLOT_PLAYER cfg) p = Ok p).
Proof.
  intros Hslot Hlk.
  assert (Hload : load ArrEntities (entities p) (SLOT_PLAYER cfg) = Ok e)
    by (apply load_Ok; split; [lia | exact Hlk]).
  split; intros Hact.
  - eexists _, (set_type ENT_TYPE_NONE (set_flags 0 e)).
    split.
    { unfold entity_free.
      destruct (Z.ltb_spec (SLOT_PLAYER cfg) (MAX_ENTITIES cfg)); [|lia].
      rewrite Hload. simpl. rewrite Hact.
      rewrite (store_after_load _ _ _ _ _ Hload). simpl. reflexivity. }
    simpl. split.
    { apply list_lookup_insert_eq. eapply lookup_lt_Some; eauto. }
    repeat split.
    intros j Hj. apply list_lookup_insert_ne. auto.
  - eapply entity_free_inactive; eauto.
Qed.

Lemma entity_free_player_slot_witness :
  0 <= SLOT_PLAYER epoch_config < MAX_ENTITIES epoch_config /\
  exists e,
    entities player_pool !! Z.to_nat (SLOT_PLAYER epoch_config) = Some e /\
    is_active e = true /\
    exists p' e',
      entity_free epoch_config (SLOT_PLAYER epoch_config) player_pool = Ok p' /\
      entities p' !! Z.to_nat (SLOT_PLAYER epoch_config) = Some e' /\
      is_active e' = false.
Proof.
  split; [simpl; lia|].
  eexists. split; [reflexivity|]. split; [reflexivity|].
  destruct (entity_free_player_slot epoch_config player_pool _
              ltac:(simpl; lia) eq_refl) as [H _].
  destruct (H eq_refl) as (p' & e' & Hf & Hl & Ha & _).
  exists p', e'. auto.
Defined.

(** C3, as stated, fails: freeing slot 0 of the pool in which the player
    has been spawned does not leave the player's entity as it was. *)
Lemma entity_free_frees_player :
  ~ (forall p e,
       wf_pool epoch_config p ->
       entities p !! Z.to_nat (SLOT_PLAYER epoch_config) = Some e ->
       is_active e = true ->
       exists p',
         entity_free epoch_config (SLOT_PLAYER epoch_config) p = Ok p' /\
         entities p' !! Z.to_nat (SLOT_PLAYER epoch_config) = Some e).
Proof.
  intros H.
  destruct (H player_pool _ wf_player_pool eq_refl eq_refl) as (p' & Hf & Hl).
  vm_compute in Hf. injection Hf as <-.
  vm_compute in Hl. discriminate.
Qed.

Example player_pool_free :
  exists p' e',
    entity_free epoch_config 0 player_pool = Ok p' /\
    entities p' !! 0%nat = Some e' /\ is_active e' = false /\
    entityCount player_pool = 1 /\ entityCount p' = 0.
Proof. do 2 eexists. split; [vm_compute; reflexivity|]. repeat split. Qed.

(** ** The grid *)

Lemma cell_coord_bound (a limit : Z) :
  0 < limit <= 256 ->
  0 <= (if to_u8 a >=? limit then to_u8 (limit - 1) else to_u8 a) < limit.
Proof.
  intros Hl. pose proof (to_u8_range a).
  destruct (Z.geb_spec (to_u8 a) limit).
  - rewrite to_u8_small; lia.
  - lia.
Qed.

Lemma shiftr_6_div v : Z.shiftr v SPATIAL_CELL_SHIFT = v / 64.
Proof. unfold SPATIAL_CELL_SHIFT. rewrite Z.shiftr_div_pow2 by lia. reflexivity. Qed.

Lemma shiftl_5_mul v : Z.shiftl v SPATIAL_GRID_W_SHIFT = v * 32.
Proof. unfold SPATIAL_GRID_W_SHIFT. rewrite Z.shiftl_mul_pow2 by lia. reflexivity. Qed.

Lemma div64_bounds v hi : 0 <= v <= hi -> 0 <= v / 64 <= hi / 64.
Proof.
  intros H. split.
  - apply Z.div_pos; lia.
  - apply Z.div_le_mono; lia.
Qed.

Lemma cell_index_bound cfg x0 y0 :
  0 <= spatial_getCellIndex cfg x0 y0 < SPATIAL_GRID_CELLS.
Proof.
  unfold spatial_getCellIndex.
  rewrite shiftl_5_mul.
  match goal with
  | |- context [to_u16 ((if to_u8 ?a >=? _ then _ else _)
                        + (if to_u8 ?b >=? _ then _ else _) * 32)] =>
      pose proof (cell_coord_bound a SPATIAL_GRID_W
                    ltac:(vm_compute; split; [reflexivity | discriminate])) as Hx;
      pose proof (cell_coord_bound b SPATIAL_GRID_H
                    ltac:(vm_compute; split; [reflexivity | discriminate])) as Hy
  end.
  change SPATIAL_GRID_W with 32 in *. change SPATIAL_GRID_H with 16 in *.
  change SPATIAL_GRID_CELLS with 512.
  rewrite to_u16_small; lia.
Qed.

(** C6. For every position, inside the playfield or not,
    [spatial_getCellIndex] returns an index below [SPATIAL_GRID_CELLS]
    (512), whatever the configured map size; in EPOCH's build it is the
    index of the cell of the pixel position clamped into the map, column
    plus 32 times row. *)
Theorem spatial_getCellIndex_in_grid :
  (forall cfg x y, 0 <= spatial_getCellIndex cfg x y < SPATIAL_GRID_CELLS)
  /\
  (SPATIAL_GRID_CELLS = 512 /\
   forall x y,
     spatial_getCellIndex epoch_config x y =
       clamp 0 1279 (to_s16 (FP_INT x)) / 64
       + 32 * (clamp 0 895 (to_s16 (FP_INT y)) / 64)).
Proof.
  split; [|split; [reflexivity|]].
  - intros cfg x0 y0. apply cell_index_bound.
  - intros x0 y0. unfold spatial_getCellIndex, clamp. simpl MAP_WIDTH. simpl MAP_HEIGHT.
    pose proof (to_s16_range (FP_INT x0)) as Hpx.
    pose proof (to_s16_range (FP_INT y0)) as Hpy.
    set (px := to_s16 (FP_INT x0)) in *. set (py := to_s16 (FP_INT y0)) in *.
    rewrite shiftl_5_mul, !shiftr_6_div.
    change SPATIAL_GRID_W with 32. change SPATIAL_GRID_H with 16.
    assert (Hcx : (if (if px <? 0 then 0 else px) >=? 1280 then to_s16 (1280 - 1)
                   else if px <? 0 then 0 else px) = Z.max 0 (Z.min 1279 px)).
    { destruct (Z.ltb_spec px 0).
      - simpl. lia.
      - destruct (Z.geb_spec px 1280).
        + rewrite to_s16_small by lia. lia.
        + lia. }
    assert (Hcy : (if (if py <? 0 then 0 else py) >=? 896 then to_s16 (896 - 1)
                   else if py <? 0 then 0 else py) = Z.max 0 (Z.min 895 py)).
    { destruct (Z.ltb_spec py 0).
      - simpl. lia.
      - destruct (Z.geb_spec py 896).
        + rewrite to_s16_small by lia. lia.
        + lia. }
    rewrite Hcx, Hcy.
    pose proof (div64_bounds (Z.max 0 (Z.min 1279 px)) 1279 ltac:(lia)) as Hdx.
    pose proof (div64_bounds (Z.max 0 (Z.min 895 py)) 895 ltac:(lia)) as Hdy.
    change (1279 / 64) with 19 in Hdx. change (895 / 64) with 13 in Hdy.
    set (cx := Z.max 0 (Z.min 1279 px) / 64) in *.
    set (cy := Z.max 0 (Z.min 895 py) / 64) in *.
    rewrite (to_u8_small cx), (to_u8_small cy) by lia.
    destruct (Z.geb_spec cx 32); [lia|].
    destruct (Z.geb_spec cy 16); [lia|].
    rewrite to_u16_small; lia.
Qed.

Lemma spatial_getFirstInCell_out_of_range cellIndex g :
  SPATIAL_GRID_CELLS <= cellIndex ->
  spatial_getFirstInCell cellIndex g = Ok SPATIAL_NULL.
Proof.
  intros H. unfold spatial_getFirstInCell.
  destruct (Z.geb_spec cellIndex SPATIAL_GRID_CELLS); [reflexivity | lia].
Qed.

Lemma spatial_getFirstInCell_in_range cfg cellIndex g :
  wf_grid cfg g -> 0 <= cellIndex < SPATIAL_GRID_CELLS ->
  exists slot, spatial_getFirstInCell cellIndex g = Ok slot.
Proof.
  intros [Hf _] H. unfold spatial_getFirstInCell.
  destruct (Z.geb_spec cellIndex SPATIAL_GRID_CELLS); [lia|].
  apply load_in_bounds; lia.
Qed.

(** [spatial_insert] has no test on [slot]: with a slot past the end of
    [nextEntity] its first store lands outside that array. *)
Lemma spatial_insert_out_of_range cfg slot x0 y0 g :
  wf_grid cfg g -> 0 <= MAX_ENTITIES cfg <= slot ->
  spatial_insert cfg slot x0 y0 g = OutOfBounds ArrNextEntity slot.
Proof.
  intros [Hf Hn] Hslot. unfold spatial_insert.
  pose proof (cell_index_bound cfg x0 y0) as Hc.
  destruct (load_in_bounds ArrFirstInCell (firstInCell g)
              (spatial_getCellIndex cfg x0 y0) ltac:(lia) ltac:(lia)) as [h Hh].
  rewrite Hh. cbn [bind]. rewrite store_out_of_bounds by lia. reflexivity.
Qed.

(** With a slot inside the array the insertion prepends the slot to the
    list of its cell. *)
Lemma spatial_insert_in_range cfg slot x0 y0 g :
  wf_grid cfg g -> 0 <= slot < MAX_ENTITIES cfg ->
  exists head,
    load ArrFirstInCell (firstInCell g) (spatial_getCellIndex cfg x0 y0) = Ok head /\
    spatial_insert cfg slot x0 y0 g =
      Ok {| firstInCell :=
              <[Z.to_nat (spatial_getCellIndex cfg x0 y0) := slot]> (firstInCell g);
            nextEntity := <[Z.to_nat slot := head]> (nextEntity g) |}.
Proof.
  intros [Hf Hn] Hslot. unfold spatial_insert.
  pose proof (cell_index_bound cfg x0 y0) as Hc.
  destruct (load_in_bounds ArrFirstInCell (firstInCell g)
              (spatial_getCellIndex cfg x0 y0) ltac:(lia) ltac:(lia)) as [h Hh].
  exists h. split; [exact Hh|]. rewrite Hh. cbn [bind].
  rewrite (store_after_load _ _ _ _ _ Hh).
  unfold store. destruct (Z.ltb_spec slot 0); [lia|].
  destruct (Nat.ltb_spec (Z.to_nat slot) (length (nextEntity g))); [|lia].
  reflexivity.
Qed.

Lemma wf_grid_clear cfg : wf_grid cfg (spatial_clear cfg).
Proof. split; unfold spatial_clear; cbn [firstInCell nextEntity]; apply length_replicate. Qed.

(** C2 at the failing input.  In EPOCH's build ([MAX_ENTITIES] = 64),
    [spatial_insert(200, FP(100), FP(100))] on the cleared grid is not a
    no-op: it stores to [nextEntity[200]], outside the 64 declared
    elements. *)
Theorem spatial_insert_slot_200_out_of_bounds :
  spatial_insert epoch_config 200 (FP 100) (FP 100) (spatial_clear epoch_config)
    = OutOfBounds ArrNextEntity 200
  /\
  spatial_insert epoch_config 200 (FP 100) (FP 100) (spatial_clear epoch_config)
    <> Ok (spatial_clear epoch_config).
Proof.
  assert (H : spatial_insert epoch_config 200 (FP 100) (FP 100)
                (spatial_clear epoch_config) = OutOfBounds ArrNextEntity 200)
    by (vm_compute; reflexivity).
  split; [exact H | rewrite H; discriminate].
Qed.

(** ** The collision query *)

Section Query.

Variables (sourceSlot targetMask frameCount : Z).
Variables (source : Entity) (p : Pool) (g : SpatialGrid).

Lemma examine_skips slot :
  Z.land slot 1 <> Z.land frameCount 1 ->
  examine sourceSlot targetMask frameCount source p slot = Ok false.
Proof.
  intros H. unfold examine.
  destruct (Z.eqb_spec (Z.land slot 1) (Z.land frameCount 1)); [contradiction|].
  reflexivity.
Qed.

Lemma examine_true slot :
  examine sourceSlot targetMask frameCount source p slot = Ok true ->
  Z.land slot 1 = Z.land frameCount 1 /\ slot <> sourceSlot /\
  exists target,
    load ArrEntities (entities p) slot = Ok target /\
    is_active target = true /\ gates source target targetMask = true.
Proof.
  unfold examine.
  destruct (Z.eqb_spec (Z.land slot 1) (Z.land frameCount 1)); [|discriminate].
  destruct (Z.eqb_spec slot sourceSlot); simpl; [discriminate|].
  destruct (load ArrEntities (entities p) slot) as [target| |] eqn:Hl;
    simpl; try discriminate.
  destruct (is_active target) eqn:Ha; [|discriminate].
  intros [= Hg]. repeat split; auto. exists target. auto.
Qed.

Lemma examine_hits slot :
  0 <= slot -> (Z.to_nat slot < length (entities p))%nat ->
  examine sourceSlot targetMask frameCount source p slot = Ok (hits sourceSlot targetMask frameCount source p slot).
Proof.
  intros H0 Hlen. unfold examine, hits.
  destruct (load_in_bounds ArrEntities (entities p) slot H0 Hlen) as [target Ht].
  rewrite Ht. apply load_Ok in Ht as [_ ->].
  destruct (Z.land slot 1 =? Z.land frameCount 1); [|reflexivity].
  destruct (slot =? sourceSlot); simpl; [reflexivity|].
  destruct (is_active target); reflexivity.
Qed.

(** A returned slot other than the no-collision value was examined and
    passed. *)
Lemma cell_walk_result fuel : forall slot r,
  cell_walk fuel sourceSlot targetMask frameCount source p g slot = Ok r ->
  r = 255 \/
  examine sourceSlot targetMask frameCount source p r = Ok true.
Proof.
  induction fuel as [|fuel IH]; intros slot r H; simpl in H; [discriminate|].
  destruct (slot =? SPATIAL_NULL).
  - injection H as <-. left. reflexivity.
  - destruct (examine sourceSlot targetMask frameCount source p slot)
      as [[|]| |] eqn:He; simpl in H; try discriminate.
    + injection H as <-. right. exact He.
    + destruct (load ArrNextEntity (nextEntity g) slot) as [next| |];
        simpl in H; try discriminate.
      eapply IH; eauto.
Qed.

Lemma chain_not_null head l slot :
  chain g head l -> In slot l -> slot <> SPATIAL_NULL.
Proof.
  induction 1 as [|s0 next l Hs Hn Hc IH]; intros Hin; [destruct Hin|].
  destruct Hin as [<-|Hin]; auto.
Qed.

(** On a list that ends, with its slots inside the pool and enough
    iterations allowed, the loop returns the first slot that hits. *)
Lemma cell_walk_chain head l :
  chain g head l ->
  forall fuel,
    (forall u, In u l -> 0 <= u /\ (Z.to_nat u < length (entities p))%nat) ->
    (length l < fuel)%nat ->
    cell_walk fuel sourceSlot targetMask frameCount source p g head
    = Ok (first_hit sourceSlot targetMask frameCount source p l).
Proof.
  induction 1 as [|s0 next l Hs Hn Hc IH]; intros fuel Hb Hf.
  - destruct fuel; [simpl in Hf; lia|]. reflexivity.
  - destruct fuel; [simpl in Hf; lia|]. simpl.
    destruct (Z.eqb_spec s0 SPATIAL_NULL); [contradiction|].
    destruct (Hb s0 (or_introl eq_refl)) as [H0 Hl].
    rewrite (examine_hits s0 H0 Hl). simpl.
    destruct (hits sourceSlot targetMask frameCount source p s0); [reflexivity|].
    rewrite Hn. simpl. apply IH.
    + intros u Hu. apply Hb. right. exact Hu.
    + simpl in Hf. lia.
Qed.

Lemma first_hit_hits l :
  first_hit sourceSlot targetMask frameCount source p l <> 255 ->
  hits sourceSlot targetMask frameCount source p
    (first_hit sourceSlot targetMask frameCount source p l) = true.
Proof.
  induction l as [|u l IH]; simpl; intros H; [contradiction|].
  destruct (hits sourceSlot targetMask frameCount source p u) eqn:Hu; auto.
Qed.

Lemma first_hit_app pre t post :
  (forall u, In u pre -> hits sourceSlot targetMask frameCount source p u = false) ->
  hits sourceSlot targetMask frameCount source p t = true ->
  first_hit sourceSlot targetMask frameCount source p (pre ++ t :: post) = t.
Proof.
  intros Hpre Ht. induction pre as [|u pre IH]; simpl.
  - rewrite Ht. reflexivity.
  - rewrite (Hpre u (or_introl eq_refl)). apply IH.
    intros v Hv. apply Hpre. right. exact Hv.
Qed.

End Query.

Lemma hits_parity s m f src p slot :
  hits s m f src p slot = true -> Z.land slot 1 = Z.land f 1.
Proof.
  unfold hits. destruct (Z.eqb_spec (Z.land slot 1) (Z.land f 1)); [auto|].
  simpl. discriminate.
Qed.

Lemma next_frame_parity f : Z.land (to_u16 (f + 1)) 1 <> Z.land f 1.
Proof.
  rewrite !land_1_mod. unfold to_u16. Z.div_mod_to_equations. lia.
Qed.

(** ** Concrete scenes *)

Example skirmish_slots :
  slot_active skirmish_pool 26 = true /\ slot_active skirmish_pool 2 = true /\
  slot_active skirmish_pool 3 = true /\ entityCount skirmish_pool = 3.
Proof. repeat apply conj; vm_compute; reflexivity. Qed.

Example skirmish_chain :
  spatial_getFirstInCell 33 skirmish_grid = Ok 2 /\
  chain skirmish_grid 2 [2; 3].
Proof.
  split; [reflexivity|].
  apply (chain_next _ 2 3); [discriminate | reflexivity |].
  apply (chain_next _ 3 255); [discriminate | reflexivity |].
  apply chain_null.
Qed.

(** ** The collision query: main results *)

(** C10. A value other than 0xFF returned by
    [spatial_checkCollisionThreeGate] is not the source slot and is the slot
    of an entity of the pool whose [ENT_ACTIVE] flag is set. *)
Theorem collision_result_is_other_active
    (cfg : Config) (fuel : nat) (sourceSlot targetMask frameCount : Z)
    (p : Pool) (g : SpatialGrid) (r : Z) :
  spatial_checkCollisionThreeGate cfg fuel sourceSlot targetMask frameCount p g
    = Ok r ->
  r <> 255 ->
  r <> sourceSlot /\
  exists e, 0 <= r /\ entities p !! Z.to_nat r = Some e /\ is_active e = true.
Proof.
  unfold spatial_checkCollisionThreeGate. intros H Hr.
  destruct (load ArrEntities (entities p) sourceSlot) as [source| |];
    cbn [bind] in H; try discriminate.
  destruct (load ArrFirstInCell (firstInCell g)
              (spatial_getCellIndex cfg (x source) (y source))) as [head| |];
    cbn [bind] in H; try discriminate.
  destruct (cell_walk_result _ _ _ _ _ _ _ _ _ H) as [->|He]; [contradiction|].
  destruct (examine_true _ _ _ _ _ _ He) as (_ & Hne & target & Hl & Ha & _).
  split; [exact Hne|]. exists target.
  apply load_Ok in Hl as [H0 Hl]. auto.
Qed.

Lemma collision_result_is_other_active_witness :
  spatial_checkCollisionThreeGate epoch_config walk_limit 26 COLL_ENEMY 1
    skirmish_pool skirmish_grid = Ok 3 /\
  3 <> 255 /\
  3 <> 26 /\
  exists e, 0 <= 3 /\ entities skirmish_pool !! Z.to_nat 3 = Some e /\
            is_active e = true.
Proof.
  split; [vm_compute; reflexivity|].
  split; [discriminate|].
  apply (collision_result_is_other_active epoch_config walk_limit 26 COLL_ENEMY 1
           skirmish_pool skirmish_grid 3).
  - vm_compute; reflexivity.
  - discriminate.
Defined.

(** What the query returns for a colliding pair, frame by frame. *)
Lemma colliding_pair_query cfg fuel s t mask p g f :
  colliding_pair cfg fuel s t mask p g ->
  (Z.land t 1 = Z.land f 1 ->
   spatial_checkCollisionThreeGate cfg fuel s mask f p g = Ok t) /\
  (Z.land t 1 <> Z.land f 1 ->
   spatial_checkCollisionThreeGate cfg fuel s mask f p g <> Ok t).
Proof.
  intros (source & target & head & pre & post & Hwf & Hs & Hh & Hc & Hb & Hf
          & Hts & Ht & Ha & Hg1 & Hg2 & Hg3 & Hpre).
  assert (Hq : spatial_checkCollisionThreeGate cfg fuel s mask f p g
               = Ok (first_hit s mask f source p (pre ++ t :: post))).
  { unfold spatial_checkCollisionThreeGate. rewrite Hs. cbn [bind]. rewrite Hh.
    cbn [bind].
    apply cell_walk_chain; auto.
    intros u Hu. specialize (Hb u Hu). unfold wf_pool in Hwf. lia. }
  rewrite Hq. split; intros Hpar.
  - f_equal. apply first_hit_app.
    + intros u Hu. unfold hits.
      destruct (Z.land u 1 =? Z.land f 1); [|reflexivity].
      destruct (Z.eqb_spec u s); [reflexivity|]. simpl.
      destruct (entities p !! Z.to_nat u) as [e|] eqn:He; [|reflexivity].
      destruct (is_active e) eqn:Hae; [|reflexivity]. simpl.
      apply (Hpre u e Hu n); auto.
      apply load_Ok. split; auto.
      apply (Hb u). apply in_or_app. left. exact Hu.
    + unfold hits. apply load_Ok in Ht as [_ ->].
      rewrite Hpar, Z.eqb_refl.
      destruct (Z.eqb_spec t s); [contradiction|].
      rewrite Ha. unfold gates. rewrite Hg1, Hg2, Hg3. reflexivity.
  - intros [= Heq].
    assert (Hnn : t <> 255).
    { apply (chain_not_null g head (pre ++ t :: post) t Hc).
      apply in_or_app. right. left. reflexivity. }
    pose proof (first_hit_hits s mask f source p (pre ++ t :: post)) as Hh'.
    rewrite Heq in Hh'. apply Hpar. eapply hits_parity. apply Hh'. exact Hnn.
Qed.


Lemma skirmish_colliding_pair :
  colliding_pair epoch_config walk_limit 26 3 COLL_ENEMY
    skirmish_pool skirmish_grid.
Proof.
  unfold colliding_pair. eexists _, _, 2, [2], [].
  split; [reflexivity|].
  split; [vm_compute; reflexivity|].
  split; [vm_compute; reflexivity|].
  split.
  { apply (chain_next _ 2 3); [discriminate | reflexivity |].
    apply (chain_next _ 3 255); [discriminate | reflexivity |].
    apply chain_null. }
  split.
  { simpl. intros u [<-|[<-|[]]]; lia. }
  split; [unfold walk_limit; simpl; lia|].
  split; [discriminate|].
  split; [vm_compute; reflexivity|].
  split; [reflexivity|].
  split; [reflexivity|].
  split; [reflexivity|].
  split; [reflexivity|].
  intros u e [<-|[]] _ Hl _. vm_compute in Hl. injection Hl as <-. reflexivity.
Defined.


Example skirmish_frames :
  spatial_checkCollisionThreeGate epoch_config walk_limit 26 COLL_ENEMY 0
    skirmish_pool skirmish_grid = Ok 255 /\
  spatial_checkCollisionThreeGate epoch_config walk_limit 26 COLL_ENEMY 1
    skirmish_pool skirmish_grid = Ok 3 /\
  spatial_checkCollisionThreeGate epoch_config walk_limit 26 COLL_ENEMY 2
    skirmish_pool skirmish_grid = Ok 255 /\
  spatial_checkCollisionThreeGate epoch_config walk_limit 26 COLL_ENEMY 65535
    skirmish_pool skirmish_grid = Ok 3.
Proof. repeat split; vm_compute; reflexivity. Qed.


(** The two ways a pair that passes all three gates goes unreported: an
    earlier match on the list (frames 0 to 3 of the crowd), and a candidate
    in the neighbouring cell (every frame). *)
Example crowd_frames :
  spatial_getFirstInCell 33 crowd_grid = Ok 5 /\
  chain crowd_grid 5 [5; 3] /\
  spatial_checkCollisionThreeGate epoch_config walk_limit 26 COLL_ENEMY 0
    crowd_pool crowd_grid = Ok 255 /\
  spatial_checkCollisionThreeGate epoch_config walk_limit 26 COLL_ENEMY 1
    crowd_pool crowd_grid = Ok 5 /\
  spatial_checkCollisionThreeGate epoch_config walk_limit 26 COLL_ENEMY 2
    crowd_pool crowd_grid = Ok 255 /\
  spatial_checkCollisionThreeGate epoch_config walk_limit 26 COLL_ENEMY 3
    crowd_pool crowd_grid = Ok 5.
Proof.
  split; [vm_compute; reflexivity|]. split.
  { apply (chain_next _ 5 3); [discriminate | reflexivity |].
    apply (chain_next _ 3 255); [discriminate | reflexivity |].
    apply chain_null. }
  repeat apply conj; vm_compute; reflexivity.
Qed.

Example neighbour_frames :
  exists source target,
    load ArrEntities (entities neighbour_pool) 26 = Ok source /\
    load ArrEntities (entities neighbour_pool) 3 = Ok target /\
    is_active target = true /\
    gate1 target COLL_ENEMY = true /\ gate2 source target = true /\
    gate3 source target = true /\
    spatial_getCellIndex epoch_config (x source) (y source) = 33 /\
    spatial_getCellIndex epoch_config (x target) (y target) = 32 /\
    spatial_checkCollisionThreeGate epoch_config walk_limit 26 COLL_ENEMY 0
      neighbour_pool neighbour_grid = Ok 255 /\
    spatial_checkCollisionThreeGate epoch_config walk_limit 26 COLL_ENEMY 1
      neighbour_pool neighbour_grid = Ok 255.
Proof.
  do 2 eexists.
  split; [vm_compute; reflexivity|]. split; [vm_compute; reflexivity|].
  repeat apply conj; vm_compute; reflexivity.
Qed.

(** *** Gate 2 against Gate 3 *)

(** Where the constant 32 of [manhattanMax] is enough: a target whose
    half-width and half-height sum to at most 33 pixels and that passes
    Gate 3 passes Gate 2. *)
Lemma gate3_implies_gate2_small_target (source target : Entity) :
  is_u8 (width source) -> is_u8 (height source) ->
  is_u8 (width target) -> is_u8 (height target) ->
  Z.shiftr (width target) 1 + Z.shiftr (height target) 1 <= 33 ->
  gate3 source target = true -> gate2 source target = true.
Proof.
  unfold is_u8, gate3, gate2, manhattanMax, srcHalfW, srcHalfH.
  intros Hsw Hsh Htw Hth Hsum H3.
  assert (Hb : forall v, 0 <= v < 256 -> 0 <= Z.shiftr v 1 <= 127).
  { intros v Hv. rewrite Z.shiftr_div_pow2 by lia. change (2 ^ 1) with 2.
    assert (v / 2 < 128) by (apply Z.div_lt_upper_bound; lia).
    split; [apply Z.div_pos; lia | lia]. }
  pose proof (Hb _ Hsw) as Bsw. pose proof (Hb _ Hsh) as Bsh.
  pose proof (Hb _ Htw) as Btw. pose proof (Hb _ Hth) as Bth.
  set (sw := Z.shiftr (width source) 1) in *.
  set (sh := Z.shiftr (height source) 1) in *.
  set (tw := Z.shiftr (width target) 1) in *.
  set (th := Z.shiftr (height target) 1) in *.
  rewrite (to_s16_small sw), (to_s16_small sh) in * by lia.
  rewrite (to_s16_small tw), (to_s16_small th) in H3 by lia.
  rewrite (to_s16_small (sw + tw)), (to_s16_small (sh + th)) in H3 by lia.
  rewrite (to_s16_small (sw + sh + 32)) by lia.
  apply andb_true_iff in H3 as [Hx Hy].
  apply Z.ltb_lt in Hx, Hy. apply Z.ltb_lt. lia.
Qed.

(** C1 at the failing input.  The projectile at pixel (70,70) (12x12) and
    the centre tower at (100,98) (64x64, the default [entity_alloc] gives a
    tower) share a cell, the tower is active and passes Gate 1 for
    [COLL_TOWER], and the exact test of Gate 3 holds ([dx] = 30 < 38 and
    [dy] = 28 < 38); Gate 2 rejects the pair all the same (30 + 28 = 58 is
    not below 6 + 6 + 32 = 44), and the query reports no collision on
    either frame parity. *)
Theorem gate2_rejects_gate3_overlap :
  exists source target,
    entities tower_pool !! 26%nat = Some source /\
    entities tower_pool !! 58%nat = Some target /\
    is_active target = true /\
    spatial_getCellIndex epoch_config (x source) (y source)
      = spatial_getCellIndex epoch_config (x target) (y target) /\
    spatial_getFirstInCell
      (spatial_getCellIndex epoch_config (x source) (y source)) tower_grid
      = Ok 58 /\
    gate1 target COLL_TOWER = true /\
    dist_x source target = 30 /\ dist_y source target = 28 /\
    manhattanMax source = 44 /\
    gate3 source target = true /\
    gate2 source target = false /\
    spatial_checkCollisionThreeGate epoch_config walk_limit 26 COLL_TOWER 0
      tower_pool tower_grid = Ok 255 /\
    spatial_checkCollisionThreeGate epoch_config walk_limit 26 COLL_TOWER 1
      tower_pool tower_grid = Ok 255.
Proof.
  do 2 eexists.
  split; [vm_compute; reflexivity|].
  split; [vm_compute; reflexivity|].
  repeat split; vm_compute; reflexivity.
Qed.

(** * Further properties *)

(** ** The pool: how the operations compose *)

Lemma entity_free_active cfg slot p e :
  0 <= slot < MAX_ENTITIES cfg ->
  entities p !! Z.to_nat slot = Some e -> is_active e = true ->
  entity_free cfg slot p =
    Ok {| entities := <[Z.to_nat slot := set_type ENT_TYPE_NONE (set_flags 0 e)]>
                        (entities p);
          entityCount := if 0 <? entityCount p then to_u8 (entityCount p - 1)
                         else entityCount p |}.
Proof.
  intros Hs Hlk Ha. unfold entity_free.
  destruct (Z.ltb_spec slot (MAX_ENTITIES cfg)); [|lia].
  assert (Hl : load ArrEntities (entities p) slot = Ok e)
    by (apply load_Ok; split; [lia | exact Hlk]).
  rewrite Hl. cbn [bind]. rewrite Ha.
  rewrite (store_after_load _ _ _ _ _ Hl). reflexivity.
Qed.

Lemma slot_active_insert es cnt cnt' k e' j :
  0 <= j -> 0 <= k -> (Z.to_nat k < length es)%nat ->
  slot_active {| entities := <[Z.to_nat k := e']> es; entityCount := cnt' |} j =
  if j =? k then is_active e'
  else slot_active {| entities := es; entityCount := cnt |} j.
Proof.
  intros Hj Hk Hlen. unfold slot_active. cbn [entities].
  destruct (Z.eqb_spec j k) as [->|Hne].
  - rewrite list_lookup_insert_eq by exact Hlen. reflexivity.
  - rewrite list_lookup_insert_ne by lia. reflexivity.
Qed.

Lemma slot_active_eta p j :
  slot_active {| entities := entities p; entityCount := entityCount p |} j
  = slot_active p j.
Proof. reflexivity. Qed.

(** X1. [entity_alloc] and [entity_free] change at most the slot
    concerned: after either call the pool still has its [MAX_ENTITIES]
    entries, and every slot other than the one returned (resp. freed) holds
    the entity it held before; an allocation that returns -1 therefore
    changes no slot at all. *)
Theorem pool_ops_touch_one_slot (cfg : Config) (p : Pool) :
  wf_config cfg -> wf_pool cfg p ->
  (forall ty slot p',
     entity_alloc cfg ty p = Ok (slot, p') ->
     wf_pool cfg p' /\
     forall j : nat, Z.of_nat j <> slot -> entities p' !! j = entities p !! j)
  /\
  (forall slot p',
     entity_free cfg slot p = Ok p' ->
     wf_pool cfg p' /\
     forall j : nat, Z.of_nat j <> slot -> entities p' !! j = entities p !! j).
Proof.
  intros Hcfg Hwf. split.
  - intros ty slot p' Ha.
    destruct (slot_range cfg ty) as [s e] eqn:Hr.
    destruct (entity_alloc_spec cfg ty p s e Hcfg Hwf Hr)
      as [[Hres _]|(k & e0 & Hk & Hlk & Hin & _ & Hres)];
      rewrite Hres in Ha; injection Ha as <- <-.
    + split; [exact Hwf | reflexivity].
    + split.
      * unfold wf_pool in *. cbn [entities]. rewrite length_insert. exact Hwf.
      * intros j Hj. cbn [entities]. apply list_lookup_insert_ne.
        destruct (slot_range_bounds _ _ _ _ Hcfg Hr). lia.
  - intros slot p' Hf. unfold entity_free in Hf.
    destruct (slot <? MAX_ENTITIES cfg);
      [|injection Hf as <-; split; [exact Hwf | reflexivity]].
    destruct (load ArrEntities (entities p) slot) as [e| |] eqn:Hload;
      cbn [bind] in Hf; try discriminate.
    destruct (is_active e);
      [|injection Hf as <-; split; [exact Hwf | reflexivity]].
    rewrite (store_after_load _ _ _ _ _ Hload) in Hf. cbn [bind] in Hf.
    injection Hf as <-. apply load_Ok in Hload as [H0 _]. split.
    + unfold wf_pool in *. cbn [entities]. rewrite length_insert. exact Hwf.
    + intros j Hj. cbn [entities]. apply list_lookup_insert_ne. lia.
Qed.

Lemma pool_ops_touch_one_slot_witness :
  wf_config epoch_config /\ wf_pool epoch_config cycled_pool /\
  exists p',
    entity_alloc epoch_config ENT_TYPE_ENEMY_BASIC cycled_pool = Ok (2, p') /\
    wf_pool epoch_config p' /\
    forall j : nat, Z.of_nat j <> 2 -> entities p' !! j = entities cycled_pool !! j.
Proof.
  split; [unfold wf_config; simpl; lia|]. split; [reflexivity|].
  eexists. split; [vm_compute; reflexivity|].
  apply (proj1 (pool_ops_touch_one_slot epoch_config cycled_pool
                  ltac:(unfold wf_config; simpl; lia) eq_refl)
           ENT_TYPE_ENEMY_BASIC).
  vm_compute; reflexivity.
Defined.

(** X2. First-fit reuse: when slot [k] of a type's range is active and
    so is every slot of the range below it, freeing [k] and allocating the
    type again returns exactly [k]. *)
Theorem free_then_alloc_reuses_slot (cfg : Config) (ty : Z) (p : Pool) (s e k : Z) :
  wf_config cfg -> wf_pool cfg p -> slot_range cfg ty = (s, e) ->
  s <= k < e -> slot_active p k = true ->
  (forall j, s <= j < k -> slot_active p j = true) ->
  exists p1 p2,
    entity_free cfg k p = Ok p1 /\ entity_alloc cfg ty p1 = Ok (k, p2).
Proof.
  intros Hcfg Hwf Hr Hk Hact Hlow.
  destruct (slot_range_bounds _ _ _ _ Hcfg Hr) as (Hs & He & _).
  unfold slot_active in Hact.
  destruct (entities p !! Z.to_nat k) as [ek|] eqn:Hlk; [|discriminate].
  pose proof (lookup_lt_Some _ _ _ Hlk) as Hlen.
  eexists. rewrite (entity_free_active cfg k p ek ltac:(lia) Hlk Hact).
  set (p1 := {| entities := _; entityCount := _ |}).
  assert (Hwf1 : wf_pool cfg p1).
  { unfold wf_pool, p1 in *. cbn [entities]. rewrite length_insert. exact Hwf. }
  assert (Hact1 : forall j, 0 <= j -> slot_active p1 j =
                             if j =? k then false else slot_active p j).
  { intros j Hj. unfold p1.
    rewrite (slot_active_insert _ (entityCount p)) by (try lia; exact Hlen).
    reflexivity. }
  destruct (entity_alloc_spec cfg ty p1 s e Hcfg Hwf1 Hr)
    as [[_ Hall]|(k' & e0 & Hk' & Hlk' & Hin & Hbefore & Hres)].
  - specialize (Hall k Hk). rewrite Hact1, Z.eqb_refl in Hall by lia. discriminate.
  - assert (k' = k) as ->.
    { destruct (Z.lt_trichotomy k' k) as [Hlt|[Heq|Hgt]]; [|exact Heq|].
      - assert (Hk'a : slot_active p1 k' = false)
          by (unfold slot_active; rewrite Hlk'; exact Hin).
        rewrite Hact1 in Hk'a by lia.
        destruct (Z.eqb_spec k' k); [lia|].
        rewrite (Hlow k') in Hk'a by lia. discriminate.
      - specialize (Hbefore k ltac:(lia)).
        rewrite Hact1, Z.eqb_refl in Hbefore by lia. discriminate. }
    eexists. split; [reflexivity | exact Hres].
Qed.

Lemma free_then_alloc_reuses_slot_witness :
  wf_config epoch_config /\ wf_pool epoch_config skirmish_pool /\
  slot_range epoch_config ENT_TYPE_ENEMY_BASIC = (2, 26) /\
  2 <= 3 < 26 /\ slot_active skirmish_pool 3 = true /\
  (forall j, 2 <= j < 3 -> slot_active skirmish_pool j = true) /\
  exists p1 p2,
    entity_free epoch_config 3 skirmish_pool = Ok p1 /\
    entity_alloc epoch_config ENT_TYPE_ENEMY_BASIC p1 = Ok (3, p2).
Proof.
  assert (Hlow : forall j, 2 <= j < 3 -> slot_active skirmish_pool j = true).
  { intros j Hj. assert (j = 2) as -> by lia. vm_compute; reflexivity. }
  split; [unfold wf_config; simpl; lia|]. split; [vm_compute; reflexivity|].
  split; [reflexivity|]. split; [lia|]. split; [vm_compute; reflexivity|].
  split; [exact Hlow|].
  apply (free_then_alloc_reuses_slot epoch_config ENT_TYPE_ENEMY_BASIC
           skirmish_pool 2 26 3).
  - unfold wf_config; simpl; lia.
  - vm_compute; reflexivity.
  - reflexivity.
  - lia.
  - vm_compute; reflexivity.
  - exact Hlow.
Defined.

(** X3. Allocating and then freeing the returned slot restores
    [entityCount] and the active flag of every slot, and leaves every other
    slot's entity untouched (the freed slot itself keeps the fields
    [entity_alloc] wrote, with [flags] and [type] cleared).  The [u8]
    counter must have room for the increment. *)
Theorem alloc_then_free_restores (cfg : Config) (ty : Z) (p p1 : Pool) (slot : Z) :
  wf_config cfg -> wf_pool cfg p -> 0 <= entityCount p < 255 ->
  entity_alloc cfg ty p = Ok (slot, p1) -> slot <> -1 ->
  exists p2,
    entity_free cfg slot p1 = Ok p2 /\
    entityCount p2 = entityCount p /\
    (forall j, 0 <= j -> slot_active p2 j = slot_active p j) /\
    (forall j : nat, Z.of_nat j <> slot -> entities p2 !! j = entities p !! j).
Proof.
  intros Hcfg Hwf Hcnt Ha Hslot.
  destruct (slot_range cfg ty) as [s e] eqn:Hr.
  destruct (slot_range_bounds _ _ _ _ Hcfg Hr) as (Hs & He & _).
  destruct (entity_alloc_spec cfg ty p s e Hcfg Hwf Hr)
    as [[Hres _]|(k & e0 & Hk & Hlk & Hin & _ & Hres)];
    rewrite Hres in Ha; injection Ha as <- <-; [contradiction|].
  pose proof (lookup_lt_Some _ _ _ Hlk) as Hlen.
  eexists. split.
  { apply (entity_free_active cfg k _ (alloc_init ty e0)); [lia | |].
    - cbn [entities]. apply list_lookup_insert_eq. exact Hlen.
    - apply is_active_alloc_init. }
  cbn [entities entityCount]. split; [|split].
  - rewrite (to_u8_small (entityCount p + 1)) by lia.
    destruct (Z.ltb_spec 0 (entityCount p + 1)); [|lia].
    replace (entityCount p + 1 - 1) with (entityCount p) by lia.
    apply to_u8_small. lia.
  - intros j Hj. rewrite list_insert_insert_eq.
    rewrite (slot_active_insert _ (entityCount p)) by (try lia; exact Hlen).
    rewrite slot_active_eta.
    destruct (Z.eqb_spec j k) as [->|]; [|reflexivity].
    unfold slot_active. rewrite Hlk, Hin. reflexivity.
  - intros j Hj. rewrite list_insert_insert_eq.
    apply list_lookup_insert_ne. lia.
Qed.

Lemma alloc_then_free_restores_witness :
  wf_config epoch_config /\ wf_pool epoch_config cycled_pool /\
  0 <= entityCount cycled_pool < 255 /\
  exists p1,
    entity_alloc epoch_config ENT_TYPE_ENEMY_BASIC cycled_pool = Ok (2, p1) /\
    2 <> -1 /\
    exists p2,
      entity_free epoch_config 2 p1 = Ok p2 /\
      entityCount p2 = entityCount cycled_pool /\
      (forall j, 0 <= j -> slot_active p2 j = slot_active cycled_pool j) /\
      (forall j : nat, Z.of_nat j <> 2 ->
                       entities p2 !! j = entities cycled_pool !! j).
Proof.
  split; [unfold wf_config; simpl; lia|]. split; [reflexivity|].
  split; [replace (entityCount cycled_pool) with 1 by (vm_compute; reflexivity); lia|].
  eexists. split; [vm_compute; reflexivity|]. split; [discriminate|].
  apply (alloc_then_free_restores epoch_config ENT_TYPE_ENEMY_BASIC cycled_pool).
  - unfold wf_config; simpl; lia.
  - reflexivity.
  - replace (entityCount cycled_pool) with 1 by (vm_compute; reflexivity); lia.
  - vm_compute; reflexivity.
  - discriminate.
Defined.

(** *** Filling a range *)

Lemma slot_active_init cfg j : slot_active (entity_initPool cfg) j = false.
Proof.
  unfold slot_active, entity_initPool. cbn [entities].
  destruct (replicate (Z.to_nat (MAX_ENTITIES cfg)) zero_entity !! Z.to_nat j)
    as [e|] eqn:E; [|reflexivity].
  apply lookup_replicate in E as [-> _]. reflexivity.
Qed.

Lemma alloc_repeat_full cfg ty s e p (Hcfg : wf_config cfg)
    (Hr : slot_range cfg ty = (s, e)) :
  wf_pool cfg p ->
  (forall j, s <= j < e -> slot_active p j = true) ->
  forall extra, alloc_repeat cfg extra ty p = Ok (replicate extra (-1), p).
Proof.
  intros Hwf Hall extra. induction extra as [|n IH]; [reflexivity|].
  cbn [alloc_repeat replicate].
  destruct (entity_alloc_spec cfg ty p s e Hcfg Hwf Hr)
    as [[Hres _]|(k & e0 & Hk & Hlk & Hin & _ & _)].
  - rewrite Hres. cbn [bind snd fst]. rewrite IH. reflexivity.
  - specialize (Hall k Hk). unfold slot_active in Hall.
    rewrite Hlk, Hin in Hall. discriminate.
Qed.

(** From a pool whose range [[s, e)] is active below [a] and free from
    [a] on, the next [e - a] allocations return [a], [a+1], ..., [e-1] and
    every later one returns -1. *)
Lemma alloc_repeat_fills cfg ty s e (Hcfg : wf_config cfg)
    (Hr : slot_range cfg ty = (s, e)) (extra : nat) :
  forall (n : nat) (a : Z) (p : Pool),
    wf_pool cfg p -> s <= a -> a + Z.of_nat n = e ->
    0 <= entityCount p -> entityCount p + Z.of_nat n < 256 ->
    (forall j, s <= j < a -> slot_active p j = true) ->
    (forall j, a <= j < e -> slot_active p j = false) ->
    exists p',
      alloc_repeat cfg (n + extra) ty p =
        Ok (seqZ a (Z.of_nat n) ++ replicate extra (-1), p') /\
      wf_pool cfg p' /\
      entityCount p' = entityCount p + Z.of_nat n /\
      (forall j, s <= j < e -> slot_active p' j = true) /\
      (forall j, 0 <= j -> ~ (s <= j < e) -> slot_active p' j = slot_active p j).
Proof.
  destruct (slot_range_bounds _ _ _ _ Hcfg Hr) as (Hs & He & _).
  induction n as [|n IH]; intros a p Hwf Ha Hae Hc0 Hc1 Hlow Hhigh.
  - assert (a = e) as -> by lia. clear Hhigh.
    exists p. cbn [Nat.add Z.of_nat].
    change (seqZ e 0) with (@nil Z). cbn [app].
    split; [apply (alloc_repeat_full cfg ty s e); auto|].
    split; [exact Hwf|]. split; [lia|]. split; [exact Hlow | reflexivity].
  - destruct (entity_alloc_spec cfg ty p s e Hcfg Hwf Hr)
      as [[_ Hall]|(k & e0 & Hk & Hlk & Hin & Hbefore & Hres)].
    { specialize (Hhigh a ltac:(lia)). rewrite (Hall a) in Hhigh by lia.
      discriminate. }
    assert (k = a) as ->.
    { destruct (Z.lt_trichotomy k a) as [Hlt|[Heq|Hgt]]; [|exact Heq|].
      - specialize (Hlow k ltac:(lia)). unfold slot_active in Hlow.
        rewrite Hlk, Hin in Hlow. discriminate.
      - specialize (Hbefore a ltac:(lia)).
        rewrite (Hhigh a) in Hbefore by lia. discriminate. }
    pose proof (lookup_lt_Some _ _ _ Hlk) as Hlen.
    set (p1 := {| entities := <[Z.to_nat a := alloc_init ty e0]> (entities p);
                  entityCount := to_u8 (entityCount p + 1) |}) in *.
    assert (Hact1 : forall j, 0 <= j -> slot_active p1 j =
                               if j =? a then true else slot_active p j).
    { intros j Hj. unfold p1.
      rewrite (slot_active_insert _ (entityCount p)) by (try lia; exact Hlen).
      rewrite is_active_alloc_init. reflexivity. }
    destruct (IH (a + 1) p1) as (p' & Hrep & Hwf' & Hcnt' & Hact' & Hout').
    + unfold wf_pool, p1 in *. cbn [entities]. rewrite length_insert. exact Hwf.
    + lia.
    + lia.
    + unfold p1. cbn [entityCount]. rewrite to_u8_small; lia.
    + unfold p1. cbn [entityCount]. rewrite to_u8_small; lia.
    + intros j Hj. rewrite Hact1 by lia.
      destruct (Z.eqb_spec j a); [reflexivity | apply Hlow; lia].
    + intros j Hj. rewrite Hact1 by lia.
      destruct (Z.eqb_spec j a); [lia | apply Hhigh; lia].
    + exists p'. split; [|split; [exact Hwf'|split; [|split; [exact Hact'|]]]].
      * cbn [Nat.add alloc_repeat]. rewrite Hres. cbn [bind snd fst].
        fold p1. rewrite Hrep. cbn [bind snd fst].
        rewrite (seqZ_cons a (Z.of_nat (S n))) by lia.
        replace (Z.succ a) with (a + 1) by lia.
        replace (Z.pred (Z.of_nat (S n))) with (Z.of_nat n) by lia.
        reflexivity.
      * rewrite Hcnt'. unfold p1. cbn [entityCount]. rewrite to_u8_small; lia.
      * intros j Hj Hout. rewrite (Hout' j Hj Hout), Hact1 by lia.
        destruct (Z.eqb_spec j a); [lia | reflexivity].
Qed.

(** X4. Capacity: starting from [entity_initPool], the first [end -
    start] allocations of a type return the slots of its range in
    increasing order, [start], [start+1], ..., [end-1]; every further
    allocation returns -1.  Afterwards [entityCount] is the size of the
    range, the whole range is active and no slot outside it is. *)
Theorem alloc_fills_range_then_fails (cfg : Config) (ty s e : Z) (extra : nat) :
  wf_config cfg -> slot_range cfg ty = (s, e) ->
  exists p',
    alloc_repeat cfg (Z.to_nat (e - s) + extra) ty (entity_initPool cfg) =
      Ok (seqZ s (e - s) ++ replicate extra (-1), p') /\
    entityCount p' = e - s /\
    (forall j, s <= j < e -> slot_active p' j = true) /\
    (forall j, 0 <= j -> ~ (s <= j < e) -> slot_active p' j = false).
Proof.
  intros Hcfg Hr.
  destruct (slot_range_bounds _ _ _ _ Hcfg Hr) as (Hs & He & He').
  destruct (alloc_repeat_fills cfg ty s e Hcfg Hr extra (Z.to_nat (e - s)) s
              (entity_initPool cfg)) as (p' & Hrep & Hwf' & Hcnt' & Hact' & Hout').
  - unfold wf_pool. cbn [entity_initPool entities]. apply length_replicate.
  - lia.
  - lia.
  - cbn [entity_initPool entityCount]. lia.
  - cbn [entity_initPool entityCount]. lia.
  - intros j Hj. lia.
  - intros j Hj. apply slot_active_init.
  - rewrite Z2Nat.id in Hrep, Hcnt' by lia.
    exists p'. split; [exact Hrep|]. split; [exact Hcnt'|].
    split; [exact Hact'|].
    intros j Hj Hout. rewrite (Hout' j Hj Hout). apply slot_active_init.
Qed.

Lemma alloc_fills_range_then_fails_witness :
  wf_config epoch_config /\
  slot_range epoch_config ENT_TYPE_PLAYER = (0, 2) /\
  exists p',
    alloc_repeat epoch_config (Z.to_nat (2 - 0) + 1) ENT_TYPE_PLAYER
      (entity_initPool epoch_config) =
      Ok (seqZ 0 (2 - 0) ++ replicate 1 (-1), p') /\
    entityCount p' = 2 - 0 /\
    (forall j, 0 <= j < 2 -> slot_active p' j = true) /\
    (forall j, 0 <= j -> ~ (0 <= j < 2) -> slot_active p' j = false).
Proof.
  split; [unfold wf_config; simpl; lia|]. split; [reflexivity|].
  apply (alloc_fills_range_then_fails epoch_config ENT_TYPE_PLAYER 0 2 1).
  - unfold wf_config; simpl; lia.
  - reflexivity.
Defined.

(** ** The grid: clearing, inserting, walking *)

Lemma load_replicate {A : Type} arr n (a : A) i :
  0 <= i -> (Z.to_nat i < n)%nat -> load arr (replicate n a) i = Ok a.
Proof.
  intros H0 Hn. apply load_Ok. split; [exact H0|].
  apply lookup_replicate. auto.
Qed.

Lemma load_insert_ne {A : Type} arr (l : list A) i j a :
  i <> j -> 0 <= i -> 0 <= j ->
  load arr (<[Z.to_nat i := a]> l) j = load arr l j.
Proof.
  intros Hne Hi Hj. unfold load. destruct (j <? 0); [reflexivity|].
  rewrite list_lookup_insert_ne by lia. reflexivity.
Qed.

Lemma load_negative {A : Type} arr (l : list A) i :
  i < 0 -> load arr l i = OutOfBounds arr i.
Proof. intros H. unfold load. destruct (Z.ltb_spec i 0); [reflexivity | lia]. Qed.

Lemma grid_cells_512 : Z.to_nat SPATIAL_GRID_CELLS = 512%nat.
Proof. reflexivity. Qed.

(** X5. After [spatial_clear] every cell is empty:
    [spatial_getFirstInCell] answers [SPATIAL_NULL] for every [u16] index,
    and the collision query of any source of the pool returns 0xFF after one
    loop test. *)
Theorem spatial_clear_empties (cfg : Config) :
  (forall cellIndex, 0 <= cellIndex ->
     spatial_getFirstInCell cellIndex (spatial_clear cfg) = Ok SPATIAL_NULL)
  /\
  (forall fuel sourceSlot targetMask frameCount p source,
     load ArrEntities (entities p) sourceSlot = Ok source ->
     spatial_checkCollisionThreeGate cfg (S fuel) sourceSlot targetMask
       frameCount p (spatial_clear cfg) = Ok 255).
Proof.
  split.
  - intros c Hc. unfold spatial_getFirstInCell.
    destruct (Z.geb_spec c SPATIAL_GRID_CELLS); [reflexivity|].
    unfold spatial_clear. cbn [firstInCell]. apply load_replicate; lia.
  - intros fuel s mask f p source Hs.
    unfold spatial_checkCollisionThreeGate. rewrite Hs. cbn [bind].
    pose proof (cell_index_bound cfg (x source) (y source)) as Hc.
    unfold spatial_clear at 1. cbn [firstInCell].
    rewrite load_replicate by lia. cbn [bind cell_walk].
    reflexivity.
Qed.

Lemma spatial_clear_empties_witness :
  0 <= 33 /\
  spatial_getFirstInCell 33 (spatial_clear epoch_config) = Ok SPATIAL_NULL.
Proof.
  split; [lia|].
  apply (proj1 (spatial_clear_empties epoch_config) 33). lia.
Defined.

(** What one insertion does to the grid. *)
Lemma spatial_insert_then_first_aux (cfg : Config) (slot x0 y0 : Z) (g : SpatialGrid) :
  wf_grid cfg g -> 0 <= slot < MAX_ENTITIES cfg ->
  exists g' head,
    spatial_insert cfg slot x0 y0 g = Ok g' /\
    wf_grid cfg g' /\
    spatial_getFirstInCell (spatial_getCellIndex cfg x0 y0) g = Ok head /\
    spatial_getFirstInCell (spatial_getCellIndex cfg x0 y0) g' = Ok slot /\
    load ArrNextEntity (nextEntity g') slot = Ok head /\
    (forall c, 0 <= c -> c <> spatial_getCellIndex cfg x0 y0 ->
               spatial_getFirstInCell c g' = spatial_getFirstInCell c g) /\
    (forall u, 0 <= u -> u <> slot ->
               load ArrNextEntity (nextEntity g') u
               = load ArrNextEntity (nextEntity g) u).
Proof.
  intros Hwf Hslot.
  destruct (spatial_insert_in_range cfg slot x0 y0 g Hwf Hslot) as (head & Hh & Hins).
  destruct Hwf as [Hf Hn].
  pose proof (cell_index_bound cfg x0 y0) as Hc.
  set (c0 := spatial_getCellIndex cfg x0 y0) in *.
  eexists _, head. split; [exact Hins|].
  split; [split; cbn [firstInCell nextEntity]; rewrite length_insert; assumption|].
  unfold spatial_getFirstInCell.
  destruct (Z.geb_spec c0 SPATIAL_GRID_CELLS); [lia|].
  split; [exact Hh|]. cbn [firstInCell nextEntity].
  split; [eapply load_insert_eq; exact Hh|].
  split; [apply load_Ok; split; [lia|]; apply list_lookup_insert_eq; lia|].
  split.
  - intros c Hc0 Hne. destruct (c >=? SPATIAL_GRID_CELLS); [reflexivity|].
    apply load_insert_ne; lia.
  - intros u Hu Hne. apply load_insert_ne; lia.
Qed.

(** X6. Insert then look up: inserting a slot of the pool makes it the
    first entity of the cell of its position, with the previous first entity
    as its successor; the first entity of every other cell and the successor
    of every other slot are unchanged. *)
Theorem spatial_insert_then_first (cfg : Config) (slot x0 y0 : Z) (g : SpatialGrid) :
  wf_grid cfg g -> 0 <= slot < MAX_ENTITIES cfg ->
  exists g' head,
    spatial_insert cfg slot x0 y0 g = Ok g' /\
    wf_grid cfg g' /\
    spatial_getFirstInCell (spatial_getCellIndex cfg x0 y0) g = Ok head /\
    spatial_getFirstInCell (spatial_getCellIndex cfg x0 y0) g' = Ok slot /\
    load ArrNextEntity (nextEntity g') slot = Ok head /\
    (forall c, 0 <= c -> c <> spatial_getCellIndex cfg x0 y0 ->
               spatial_getFirstInCell c g' = spatial_getFirstInCell c g) /\
    (forall u, 0 <= u -> u <> slot ->
               load ArrNextEntity (nextEntity g') u
               = load ArrNextEntity (nextEntity g) u).
Proof.
  intros Hwf Hslot.
  destruct (spatial_insert_in_range cfg slot x0 y0 g Hwf Hslot) as (head & Hh & Hins).
  destruct Hwf as [Hf Hn].
  pose proof (cell_index_bound cfg x0 y0) as Hc.
  set (c0 := spatial_getCellIndex cfg x0 y0) in *.
  eexists _, head. split; [exact Hins|].
  split; [split; cbn [firstInCell nextEntity]; rewrite length_insert; assumption|].
  unfold spatial_getFirstInCell.
  destruct (Z.geb_spec c0 SPATIAL_GRID_CELLS); [lia|].
  split; [exact Hh|]. cbn [firstInCell nextEntity].
  split; [eapply load_insert_eq; exact Hh|].
  split; [apply load_Ok; split; [lia|]; apply list_lookup_insert_eq; lia|].
  split.
  - intros c Hc0 Hne. destruct (c >=? SPATIAL_GRID_CELLS); [reflexivity|].
    apply load_insert_ne; lia.
  - intros u Hu Hne. apply load_insert_ne; lia.
Qed.

Lemma spatial_insert_then_first_witness :
  wf_grid epoch_config (spatial_clear epoch_config) /\
  0 <= 3 < MAX_ENTITIES epoch_config /\
  exists g',
    spatial_insert epoch_config 3 (FP 80) (FP 70) (spatial_clear epoch_config)
      = Ok g' /\
    spatial_getFirstInCell (spatial_getCellIndex epoch_config (FP 80) (FP 70)) g'
      = Ok 3.
Proof.
  split; [apply wf_grid_clear|]. split; [simpl; lia|].
  destruct (spatial_insert_then_first epoch_config 3 (FP 80) (FP 70)
              (spatial_clear epoch_config) (wf_grid_clear epoch_config)
              ltac:(simpl; lia))
    as (g' & head & Hins & _ & _ & Hfirst & _).
  exists g'. split; [exact Hins | exact Hfirst].
Defined.

(** *** Lists built by the insertions of a frame *)

Lemma cell_members_snoc cfg c l s x0 y0 :
  cell_members cfg c (l ++ [(s, x0, y0)]) =
  (if spatial_getCellIndex cfg x0 y0 =? c then [s] else [])
  ++ cell_members cfg c l.
Proof.
  unfold cell_members. rewrite List.filter_app, List.map_app, rev_app_distr.
  cbn [List.filter fst snd].
  destruct (spatial_getCellIndex cfg x0 y0 =? c); reflexivity.
Qed.

Lemma cell_members_In cfg c l u :
  In u (cell_members cfg c l) <->
  exists x0 y0, In (u, x0, y0) l /\ spatial_getCellIndex cfg x0 y0 = c.
Proof.
  unfold cell_members. rewrite <- List.in_rev, List.in_map_iff. split.
  - intros ([[s x0] y0] & Hs & Hin). cbn [fst] in Hs. subst s.
    apply List.filter_In in Hin as [Hin Hc]. cbn [fst snd] in Hc.
    exists x0, y0. split; [exact Hin | apply Z.eqb_eq; exact Hc].
  - intros (x0 & y0 & Hin & Hc). exists (u, x0, y0). split; [reflexivity|].
    apply List.filter_In. split; [exact Hin|]. cbn [fst snd].
    apply Z.eqb_eq. exact Hc.
Qed.

Lemma cell_members_slots cfg c l u :
  In u (cell_members cfg c l) -> In u (inserted_slots l).
Proof.
  intros (x0 & y0 & Hin & _)%cell_members_In.
  unfold inserted_slots. apply List.in_map_iff. exists (u, x0, y0). auto.
Qed.

(** A list of the grid is not affected by a store to [nextEntity] at a
    slot that is not on it. *)
Lemma chain_frame g g' head l s :
  chain g head l -> ~ In s l ->
  (forall u, 0 <= u -> u <> s ->
             load ArrNextEntity (nextEntity g') u
             = load ArrNextEntity (nextEntity g) u) ->
  chain g' head l.
Proof.
  intros Hc Hs Hsame. induction Hc as [|u next l Hu Hn Hc IH].
  - apply chain_null.
  - apply (chain_next g' u next); [exact Hu | |].
    + rewrite Hsame; [exact Hn | |].
      * apply load_Ok in Hn. tauto.
      * intros ->. apply Hs. left. reflexivity.
    + apply IH. intros Hin. apply Hs. right. exact Hin.
Qed.

Lemma cell_lists_clear cfg : cell_lists cfg (spatial_clear cfg) [].
Proof.
  intros c Hc. exists SPATIAL_NULL. split.
  - unfold spatial_clear. cbn [firstInCell]. apply load_replicate; lia.
  - apply chain_null.
Qed.

Lemma cell_lists_insert cfg g l slot x0 y0 :
  wf_grid cfg g -> cell_lists cfg g l ->
  0 <= slot < MAX_ENTITIES cfg -> slot <> SPATIAL_NULL ->
  ~ In slot (inserted_slots l) ->
  exists g',
    spatial_insert cfg slot x0 y0 g = Ok g' /\ wf_grid cfg g' /\
    cell_lists cfg g' (l ++ [(slot, x0, y0)]).
Proof.
  intros Hwf Hlists Hslot Hnn Hfresh.
  destruct (spatial_insert_in_range cfg slot x0 y0 g Hwf Hslot) as (head & Hh & Hins).
  pose proof (cell_index_bound cfg x0 y0) as Hc0.
  destruct Hwf as [Hf Hn].
  set (c0 := spatial_getCellIndex cfg x0 y0) in *.
  eexists. split; [exact Hins|].
  split; [split; cbn [firstInCell nextEntity]; rewrite length_insert; assumption|].
  assert (Hnext : forall u, 0 <= u -> u <> slot ->
            load ArrNextEntity (<[Z.to_nat slot := head]> (nextEntity g)) u
            = load ArrNextEntity (nextEntity g) u).
  { intros u Hu Hne. apply load_insert_ne; lia. }
  intros c Hc. rewrite cell_members_snoc. fold c0.
  destruct (Hlists c Hc) as (hc & Hhc & Hchain).
  assert (Hchain' : chain
            {| firstInCell := <[Z.to_nat c0 := slot]> (firstInCell g);
               nextEntity := <[Z.to_nat slot := head]> (nextEntity g) |}
            hc (cell_members cfg c l)).
  { eapply chain_frame; [exact Hchain | |].
    - intros Hin. apply Hfresh. eapply cell_members_slots. exact Hin.
    - cbn [nextEntity]. exact Hnext. }
  cbn [firstInCell].
  destruct (Z.eqb_spec c0 c) as [<-|Hne].
  - exists slot. split; [eapply load_insert_eq; exact Hh|].
    cbn [app]. apply (chain_next _ slot head); [exact Hnn | |].
    + cbn [nextEntity]. apply load_Ok. split; [lia|].
      apply list_lookup_insert_eq. lia.
    + rewrite Hh in Hhc. injection Hhc as <-. exact Hchain'.
  - exists hc. split; [|exact Hchain'].
    rewrite load_insert_ne by lia. exact Hhc.
Qed.

Lemma insert_all_lists cfg : forall todo done g,
  wf_grid cfg g -> cell_lists cfg g done ->
  NoDup (inserted_slots (done ++ todo)) ->
  (forall s, In s (inserted_slots todo) ->
             0 <= s < MAX_ENTITIES cfg /\ s <> SPATIAL_NULL) ->
  exists g',
    insert_all cfg todo g = Ok g' /\ wf_grid cfg g' /\
    cell_lists cfg g' (done ++ todo).
Proof.
  induction todo as [|[[s x0] y0] todo IH]; intros done g Hwf Hl Hnd Hb.
  - exists g. rewrite app_nil_r. auto.
  - destruct (cell_lists_insert cfg g done s x0 y0 Hwf Hl) as (g1 & Hins & Hwf1 & Hl1).
    + apply Hb. left. reflexivity.
    + apply Hb. left. reflexivity.
    + unfold inserted_slots in Hnd. rewrite List.map_app in Hnd.
      apply NoDup_ListNoDup in Hnd.
      apply List.NoDup_remove_2 in Hnd. intros Hin. apply Hnd.
      apply List.in_or_app. left. exact Hin.
    + destruct (IH (done ++ [(s, x0, y0)]) g1 Hwf1 Hl1) as (g' & Hall & Hwf' & Hl').
      * rewrite <- app_assoc. exact Hnd.
      * intros u Hu. apply Hb. right. exact Hu.
      * exists g'. cbn [insert_all]. rewrite Hins. cbn [bind].
        rewrite <- app_assoc in Hl'. auto.
Qed.

Lemma inserted_once l : NoDup (inserted_slots l) ->
  forall s x0 y0 x1 y1,
    In (s, x0, y0) l -> In (s, x1, y1) l -> x0 = x1 /\ y0 = y1.
Proof.
  induction l as [|[[u ux] uy] l IH]; intros Hnd s x0 y0 x1 y1 H0 H1;
    [destruct H0|].
  unfold inserted_slots in *. cbn [List.map fst] in Hnd.
  apply NoDup_cons in Hnd as [Hu Hnd].
  assert (Hfresh : forall a b, In (u, a, b) l -> False).
  { intros a b Hin. apply Hu. apply list_elem_of_In.
    apply List.in_map_iff. exists (u, a, b). auto. }
  destruct H0 as [E0|H0], H1 as [E1|H1].
  - inversion E0; inversion E1; subst. auto.
  - inversion E0; subst. exfalso. eapply Hfresh; eauto.
  - inversion E1; subst. exfalso. eapply Hfresh; eauto.
  - eapply IH; eauto.
Qed.

Lemma cell_members_NoDup cfg c l :
  NoDup (inserted_slots l) -> NoDup (cell_members cfg c l).
Proof.
  intros Hnd. unfold cell_members.
  apply NoDup_ListNoDup, List.NoDup_rev, NoDup_ListNoDup.
  unfold inserted_slots in Hnd.
  induction l as [|[[u ux] uy] l IH]; [constructor|].
  cbn [List.map fst] in Hnd. apply NoDup_cons in Hnd as [Hu Hnd].
  cbn [List.filter fst snd].
  destruct (spatial_getCellIndex cfg ux uy =? c); [|apply IH; exact Hnd].
  cbn [List.map fst]. apply NoDup_cons. split; [|apply IH; exact Hnd].
  intros Hin. apply Hu. apply list_elem_of_In. apply list_elem_of_In in Hin.
  apply List.in_map_iff in Hin as (i & Hi & Hin).
  apply List.filter_In in Hin as [Hin _].
  apply List.in_map_iff. exists i. auto.
Qed.

Lemma inserted_slots_length cfg l :
  NoDup (inserted_slots l) ->
  (forall s, In s (inserted_slots l) -> 0 <= s < MAX_ENTITIES cfg) ->
  (length l <= Z.to_nat (MAX_ENTITIES cfg))%nat.
Proof.
  intros Hnd Hb.
  assert (Hsub : inserted_slots l ⊆+ seqZ 0 (MAX_ENTITIES cfg)).
  { apply NoDup_submseteq; [exact Hnd|].
    intros s Hs. apply elem_of_seqZ. apply list_elem_of_In in Hs.
    specialize (Hb s Hs). lia. }
  apply submseteq_length in Hsub. rewrite length_seqZ in Hsub.
  unfold inserted_slots in Hsub. rewrite List.length_map in Hsub. exact Hsub.
Qed.

Lemma cell_members_length cfg c l : (length (cell_members cfg c l) <= length l)%nat.
Proof.
  unfold cell_members. rewrite length_rev, List.length_map.
  apply List.filter_length_le.
Qed.

(** X7. Grid completeness: after [spatial_clear] and one
    [spatial_insert] for each of a list of distinct slots of the pool, no
    call has faulted, and the list of every cell, walked from
    [firstInCell] through [nextEntity] to [SPATIAL_NULL], is exactly the
    slots inserted at a position of that cell, most recent first, without
    repetition; so each inserted slot is on the list of the cell of its
    position and on no other. *)
Theorem grid_build_complete (cfg : Config) (l : list (Z * Z * Z)) :
  MAX_ENTITIES cfg <= 255 ->
  NoDup (inserted_slots l) ->
  (forall s, In s (inserted_slots l) -> 0 <= s < MAX_ENTITIES cfg) ->
  exists g,
    insert_all cfg l (spatial_clear cfg) = Ok g /\
    wf_grid cfg g /\
    cell_lists cfg g l /\
    (forall c, NoDup (cell_members cfg c l)) /\
    (forall s x0 y0, In (s, x0, y0) l ->
       forall c, In s (cell_members cfg c l) <->
                 c = spatial_getCellIndex cfg x0 y0).
Proof.
  intros Hmax Hnd Hb.
  destruct (insert_all_lists cfg l [] (spatial_clear cfg)
              (wf_grid_clear cfg) (cell_lists_clear cfg)) as (g & Hall & Hwf & Hl).
  - exact Hnd.
  - intros s Hs. specialize (Hb s Hs). split; [exact Hb|].
    unfold SPATIAL_NULL. lia.
  - exists g. cbn [app] in Hl. split; [exact Hall|]. split; [exact Hwf|].
    split; [exact Hl|]. split; [intros c; apply cell_members_NoDup; exact Hnd|].
    intros s x0 y0 Hin c. rewrite cell_members_In. split.
    + intros (x1 & y1 & Hin1 & Hc).
      destruct (inserted_once l Hnd s x0 y0 x1 y1 Hin Hin1) as [-> ->].
      symmetry. exact Hc.
    + intros ->. exists x0, y0. auto.
Qed.

Lemma skirmish_inserts_ok :
  MAX_ENTITIES epoch_config <= 255 /\
  NoDup (inserted_slots [(3, FP 80, FP 70); (2, FP 120, FP 120)]) /\
  (forall s, In s (inserted_slots [(3, FP 80, FP 70); (2, FP 120, FP 120)]) ->
             0 <= s < MAX_ENTITIES epoch_config).
Proof.
  split; [simpl; lia|]. split.
  - unfold inserted_slots. cbn [List.map fst].
    apply NoDup_cons. split; [|apply NoDup_singleton].
    intros Hin. apply list_elem_of_In in Hin. destruct Hin as [Hin|[]].
    discriminate.
  - unfold inserted_slots. cbn [List.map fst].
    intros s [<-|[<-|[]]]; simpl; lia.
Defined.

Lemma grid_build_complete_witness :
  MAX_ENTITIES epoch_config <= 255 /\
  exists g,
    insert_all epoch_config [(3, FP 80, FP 70); (2, FP 120, FP 120)]
      (spatial_clear epoch_config) = Ok g /\
    cell_lists epoch_config g [(3, FP 80, FP 70); (2, FP 120, FP 120)].
Proof.
  split; [simpl; lia|].
  destruct (grid_build_complete epoch_config
              [(3, FP 80, FP 70); (2, FP 120, FP 120)]
              (proj1 skirmish_inserts_ok)
              (proj1 (proj2 skirmish_inserts_ok))
              (proj2 (proj2 skirmish_inserts_ok)))
    as (g & Hall & _ & Hl & _).
  exists g. auto.
Defined.

Example skirmish_grid_is_built :
  insert_all epoch_config [(3, FP 80, FP 70); (2, FP 120, FP 120)]
    (spatial_clear epoch_config) = Ok skirmish_grid /\
  cell_members epoch_config 33 [(3, FP 80, FP 70); (2, FP 120, FP 120)] = [2; 3].
Proof. split; vm_compute; reflexivity. Qed.

(** *** The query on a grid built by the insertions of a frame *)

Lemma first_hit_In s m f src p l :
  first_hit s m f src p l <> 255 -> In (first_hit s m f src p l) l.
Proof.
  induction l as [|u l IH]; cbn [first_hit]; intros H; [contradiction|].
  destruct (hits s m f src p u); [left; reflexivity | right; auto].
Qed.

(** X8. On a grid built by [spatial_clear] and the insertion of distinct
    slots of the pool, the collision query always returns once it is allowed
    [MAX_ENTITIES] + 1 iterations, without any access out of bounds: its
    result is the first entity of the source's cell list that passes the
    parity, self, active and gate tests, or 0xFF.  A reported slot was
    inserted at a position of the source's own cell: entities of
    neighbouring cells are never reported. *)
Theorem query_on_built_grid (cfg : Config) (l : list (Z * Z * Z)) (p : Pool)
    (fuel : nat) (sourceSlot targetMask frameCount : Z) (source : Entity) :
  MAX_ENTITIES cfg <= 255 ->
  NoDup (inserted_slots l) ->
  (forall s, In s (inserted_slots l) -> 0 <= s < MAX_ENTITIES cfg) ->
  wf_pool cfg p ->
  load ArrEntities (entities p) sourceSlot = Ok source ->
  (Z.to_nat (MAX_ENTITIES cfg) < fuel)%nat ->
  exists g,
    insert_all cfg l (spatial_clear cfg) = Ok g /\
    spatial_checkCollisionThreeGate cfg fuel sourceSlot targetMask frameCount p g
      = Ok (first_hit sourceSlot targetMask frameCount source p
              (cell_members cfg
                 (spatial_getCellIndex cfg (x source) (y source)) l)) /\
    (forall r,
       spatial_checkCollisionThreeGate cfg fuel sourceSlot targetMask
         frameCount p g = Ok r ->
       r <> 255 ->
       exists x0 y0,
         In (r, x0, y0) l /\
         spatial_getCellIndex cfg x0 y0
         = spatial_getCellIndex cfg (x source) (y source)).
Proof.
  intros Hmax Hnd Hb Hwf Hs Hfuel.
  destruct (insert_all_lists cfg l [] (spatial_clear cfg)
              (wf_grid_clear cfg) (cell_lists_clear cfg)) as (g & Hall & Hwfg & Hl).
  - exact Hnd.
  - intros s Hin. specialize (Hb s Hin). split; [exact Hb|].
    unfold SPATIAL_NULL. lia.
  - cbn [app] in Hl. exists g. split; [exact Hall|].
    pose proof (cell_index_bound cfg (x source) (y source)) as Hc.
    set (c0 := spatial_getCellIndex cfg (x source) (y source)) in *.
    destruct (Hl c0 Hc) as (head & Hh & Hchain).
    assert (Hq : spatial_checkCollisionThreeGate cfg fuel sourceSlot targetMask
                   frameCount p g
                 = Ok (first_hit sourceSlot targetMask frameCount source p
                         (cell_members cfg c0 l))).
    { unfold spatial_checkCollisionThreeGate. rewrite Hs. cbn [bind].
      fold c0. rewrite Hh. cbn [bind].
      apply cell_walk_chain; [exact Hchain | |].
      - intros u Hu. apply cell_members_slots in Hu. specialize (Hb u Hu).
        unfold wf_pool in Hwf. lia.
      - pose proof (cell_members_length cfg c0 l).
        pose proof (inserted_slots_length cfg l Hnd Hb). lia. }
    split; [exact Hq|].
    intros r Hr Hne. rewrite Hq in Hr. injection Hr as <-.
    apply first_hit_In in Hne. apply cell_members_In in Hne. exact Hne.
Qed.

Lemma query_on_built_grid_witness :
  wf_pool epoch_config skirmish_pool /\
  (exists source, load ArrEntities (entities skirmish_pool) 26 = Ok source) /\
  (Z.to_nat (MAX_ENTITIES epoch_config) < walk_limit)%nat /\
  exists g,
    insert_all epoch_config [(3, FP 80, FP 70); (2, FP 120, FP 120)]
      (spatial_clear epoch_config) = Ok g /\
    forall r,
      spatial_checkCollisionThreeGate epoch_config walk_limit 26 COLL_ENEMY 1
        skirmish_pool g = Ok r ->
      r <> 255 ->
      exists x0 y0,
        In (r, x0, y0) [(3, FP 80, FP 70); (2, FP 120, FP 120)].
Proof.
  split; [vm_compute; reflexivity|].
  split; [eexists; vm_compute; reflexivity|].
  split; [vm_compute; lia|].
  destruct (query_on_built_grid epoch_config
              [(3, FP 80, FP 70); (2, FP 120, FP 120)] skirmish_pool walk_limit
              26 COLL_ENEMY 1 _
              (proj1 skirmish_inserts_ok)
              (proj1 (proj2 skirmish_inserts_ok))
              (proj2 (proj2 skirmish_inserts_ok))
              ltac:(vm_compute; reflexivity)
              ltac:(vm_compute; reflexivity)
              ltac:(vm_compute; lia))
    as (g & Hall & _ & Hres).
  exists g. split; [exact Hall|].
  intros r Hr Hne. destruct (Hres r Hr Hne) as (x0 & y0 & Hin & _).
  exists x0, y0. exact Hin.
Defined.

Lemma gates_true source target mask :
  gates source target mask = true ->
  gate1 target mask = true /\ gate2 source target = true /\
  gate3 source target = true.
Proof.
  unfold gates. destruct (gate1 target mask); [|discriminate].
  destruct (gate2 source target); [|discriminate]. auto.
Qed.

(** X9. A reported collision is a real one: when the query returns a
    slot other than 0xFF, that slot has the parity of the frame, its
    collision mask meets the target mask (Gate 1), and the pair passes the
    Manhattan test (Gate 2) and the exact AABB test (Gate 3). *)
Theorem reported_collision_passes_gates
    (cfg : Config) (fuel : nat) (sourceSlot targetMask frameCount : Z)
    (p : Pool) (g : SpatialGrid) (r : Z) :
  spatial_checkCollisionThreeGate cfg fuel sourceSlot targetMask frameCount p g
    = Ok r ->
  r <> 255 ->
  exists source target,
    load ArrEntities (entities p) sourceSlot = Ok source /\
    load ArrEntities (entities p) r = Ok target /\
    Z.land r 1 = Z.land frameCount 1 /\
    gate1 target targetMask = true /\
    gate2 source target = true /\
    gate3 source target = true.
Proof.
  unfold spatial_checkCollisionThreeGate. intros H Hr.
  destruct (load ArrEntities (entities p) sourceSlot) as [source| |];
    cbn [bind] in H; try discriminate.
  destruct (load ArrFirstInCell (firstInCell g)
              (spatial_getCellIndex cfg (x source) (y source))) as [head| |];
    cbn [bind] in H; try discriminate.
  destruct (cell_walk_result _ _ _ _ _ _ _ _ _ H) as [->|He]; [contradiction|].
  destruct (examine_true _ _ _ _ _ _ He) as (Hpar & _ & target & Hl & _ & Hg).
  apply gates_true in Hg as (H1 & H2 & H3).
  exists source, target. repeat split; auto.
Qed.

Lemma reported_collision_passes_gates_witness :
  spatial_checkCollisionThreeGate epoch_config walk_limit 26 COLL_ENEMY 1
    skirmish_pool skirmish_grid = Ok 3 /\
  3 <> 255 /\
  exists source target,
    load ArrEntities (entities skirmish_pool) 26 = Ok source /\
    load ArrEntities (entities skirmish_pool) 3 = Ok target /\
    Z.land 3 1 = Z.land 1 1 /\
    gate1 target COLL_ENEMY = true /\
    gate2 source target = true /\
    gate3 source target = true.
Proof.
  split; [vm_compute; reflexivity|]. split; [discriminate|].
  apply (reported_collision_passes_gates epoch_config walk_limit 26 COLL_ENEMY 1
           skirmish_pool skirmish_grid 3).
  - vm_compute; reflexivity.
  - discriminate.
Defined.

(** *** Inserting a slot twice *)

Lemma cell_walk_self_loop sourceSlot targetMask frameCount source p g slot :
  slot <> SPATIAL_NULL ->
  examine sourceSlot targetMask frameCount source p slot = Ok false ->
  load ArrNextEntity (nextEntity g) slot = Ok slot ->
  forall fuel,
    cell_walk fuel sourceSlot targetMask frameCount source p g slot = Diverges.
Proof.
  intros Hnn He Hn fuel. induction fuel as [|fuel IH]; [reflexivity|].
  cbn [cell_walk]. destruct (Z.eqb_spec slot SPATIAL_NULL); [contradiction|].
  rewrite He. cbn [bind]. rewrite Hn. cbn [bind]. exact IH.
Qed.

Lemma examine_self sourceSlot targetMask frameCount source p :
  examine sourceSlot targetMask frameCount source p sourceSlot = Ok false.
Proof.
  unfold examine. destruct (Z.land sourceSlot 1 =? Z.land frameCount 1);
    [|reflexivity].
  rewrite Z.eqb_refl. reflexivity.
Qed.

(** X10. Inserting the same slot twice at the same position without a
    [spatial_clear] in between makes the slot its own successor.  A query
    from a source of that cell for which the slot is not a hit, in
    particular a query from the slot itself, then never leaves the loop:
    whatever number of iterations it is allowed, it has not returned. *)
Theorem double_insert_never_returns
    (cfg : Config) (slot x0 y0 : Z) (g : SpatialGrid) :
  wf_grid cfg g -> 0 <= slot < MAX_ENTITIES cfg -> slot <> SPATIAL_NULL ->
  exists g1 g2,
    spatial_insert cfg slot x0 y0 g = Ok g1 /\
    spatial_insert cfg slot x0 y0 g1 = Ok g2 /\
    spatial_getFirstInCell (spatial_getCellIndex cfg x0 y0) g2 = Ok slot /\
    load ArrNextEntity (nextEntity g2) slot = Ok slot /\
    (forall fuel sourceSlot targetMask frameCount p source,
       load ArrEntities (entities p) sourceSlot = Ok source ->
       spatial_getCellIndex cfg (x source) (y source)
       = spatial_getCellIndex cfg x0 y0 ->
       examine sourceSlot targetMask frameCount source p slot = Ok false ->
       spatial_checkCollisionThreeGate cfg fuel sourceSlot targetMask
         frameCount p g2 = Diverges) /\
    (forall fuel targetMask frameCount p source,
       load ArrEntities (entities p) slot = Ok source ->
       spatial_getCellIndex cfg (x source) (y source)
       = spatial_getCellIndex cfg x0 y0 ->
       spatial_checkCollisionThreeGate cfg fuel slot targetMask
         frameCount p g2 = Diverges).
Proof.
  intros Hwf Hslot Hnn.
  destruct (spatial_insert_then_first_aux cfg slot x0 y0 g Hwf Hslot)
    as (g1 & h1 & Hi1 & Hwf1 & _ & Hf1 & _).
  destruct (spatial_insert_then_first_aux cfg slot x0 y0 g1 Hwf1 Hslot)
    as (g2 & h2 & Hi2 & Hwf2 & Hh2 & Hf2 & Hn2 & _).
  rewrite Hf1 in Hh2. injection Hh2 as <-.
  exists g1, g2. split; [exact Hi1|]. split; [exact Hi2|].
  split; [exact Hf2|]. split; [exact Hn2|].
  assert (Hgen : forall fuel sourceSlot targetMask frameCount p source,
       load ArrEntities (entities p) sourceSlot = Ok source ->
       spatial_getCellIndex cfg (x source) (y source)
       = spatial_getCellIndex cfg x0 y0 ->
       examine sourceSlot targetMask frameCount source p slot = Ok false ->
       spatial_checkCollisionThreeGate cfg fuel sourceSlot targetMask
         frameCount p g2 = Diverges).
  { intros fuel s mask f p source Hs Hc He.
    unfold spatial_checkCollisionThreeGate. rewrite Hs. cbn [bind]. rewrite Hc.
    unfold spatial_getFirstInCell in Hf2.
    pose proof (cell_index_bound cfg x0 y0) as Hb.
    destruct (Z.geb_spec (spatial_getCellIndex cfg x0 y0) SPATIAL_GRID_CELLS);
      [lia|].
    rewrite Hf2. cbn [bind].
    apply cell_walk_self_loop; assumption. }
  split; [exact Hgen|].
  intros fuel mask f p source Hs Hc.
  apply (Hgen fuel slot mask f p source Hs Hc). apply examine_self.
Qed.

Lemma double_insert_never_returns_witness :
  wf_grid epoch_config (spatial_clear epoch_config) /\
  0 <= 2 < MAX_ENTITIES epoch_config /\ 2 <> SPATIAL_NULL /\
  exists g1 g2,
    spatial_insert epoch_config 2 (FP 120) (FP 120) (spatial_clear epoch_config)
      = Ok g1 /\
    spatial_insert epoch_config 2 (FP 120) (FP 120) g1 = Ok g2 /\
    load ArrNextEntity (nextEntity g2) 2 = Ok 2.
Proof.
  split; [apply wf_grid_clear|]. split; [simpl; lia|]. split; [discriminate|].
  destruct (double_insert_never_returns epoch_config 2 (FP 120) (FP 120)
              (spatial_clear epoch_config) (wf_grid_clear epoch_config)
              ltac:(simpl; lia) ltac:(discriminate))
    as (g1 & g2 & H1 & H2 & _ & Hn & _).
  exists g1, g2. auto.
Defined.

(** ** The AABB test of entity.c *)

Lemma abs16_diff_sym u v :
  abs16 (to_s16 (u - v)) = abs16 (to_s16 (v - u)).
Proof.
  unfold abs16, to_s16.
  destruct (Z.ltb_spec ((u - v + 32768) mod 65536 - 32768) 0);
    destruct (Z.ltb_spec ((v - u + 32768) mod 65536 - 32768) 0);
    Z.div_mod_to_equations; lia.
Qed.

(** X11. [entity_checkCollision] is symmetric in its two entities, for
    all field values (the [s16] wrap-around of the differences included). *)
Theorem entity_checkCollision_sym (a b : Entity) :
  entity_checkCollision a b = entity_checkCollision b a.
Proof.
  unfold entity_checkCollision.
  rewrite (abs16_diff_sym (to_s16 (Z.shiftr (x a) 8))),
          (abs16_diff_sym (to_s16 (Z.shiftr (y a) 8))).
  rewrite (Z.add_comm (width a)), (Z.add_comm (height a)). reflexivity.
Qed.

Lemma half_sum_s16 a b :
  0 <= a < 256 -> 0 <= b < 256 ->
  to_s16 (to_s16 (Z.shiftr a 1) + to_s16 (Z.shiftr b 1)) = a / 2 + b / 2 /\
  to_s16 (Z.shiftr (a + b) 1) = (a + b) / 2.
Proof.
  intros Ha Hb. rewrite !Z.shiftr_div_pow2 by lia. change (2 ^ 1) with 2.
  assert (0 <= a / 2 < 128) by (Z.div_mod_to_equations; lia).
  assert (0 <= b / 2 < 128) by (Z.div_mod_to_equations; lia).
  assert (0 <= (a + b) / 2 < 256) by (Z.div_mod_to_equations; lia).
  rewrite (to_s16_small (a / 2)), (to_s16_small (b / 2)) by lia.
  rewrite !to_s16_small by lia. auto.
Qed.

(** X12. For entities with [u8] sizes, Gate 3 of the three-gate query
    is at least as strict as [entity_checkCollision]: it sums the two
    halved sizes where [entity_checkCollision] halves the sum, so every
    overlap it reports is one for [entity_checkCollision]; the two tests
    agree when all four sizes are even. *)
Theorem gate3_against_entity_checkCollision (source target : Entity) :
  is_u8 (width source) -> is_u8 (height source) ->
  is_u8 (width target) -> is_u8 (height target) ->
  (gate3 source target = true -> entity_checkCollision source target = true)
  /\
  (Z.even (width source) = true -> Z.even (height source) = true ->
   Z.even (width target) = true -> Z.even (height target) = true ->
   gate3 source target = entity_checkCollision source target).
Proof.
  unfold is_u8. intros Hsw Hsh Htw Hth.
  unfold gate3, entity_checkCollision, dist_x, dist_y, srcX, srcY,
    srcHalfW, srcHalfH.
  set (dx := abs16 (to_s16 (to_s16 (Z.shiftr (x source) 8)
                            - to_s16 (Z.shiftr (x target) 8)))).
  set (dy := abs16 (to_s16 (to_s16 (Z.shiftr (y source) 8)
                            - to_s16 (Z.shiftr (y target) 8)))).
  destruct (half_sum_s16 _ _ Hsw Htw) as [-> ->].
  destruct (half_sum_s16 _ _ Hsh Hth) as [-> ->].
  split.
  - intros H. apply andb_true_iff in H as [Hx Hy].
    apply Z.ltb_lt in Hx, Hy. apply andb_true_iff.
    split; apply Z.ltb_lt; Z.div_mod_to_equations; lia.
  - intros E1 E2 E3 E4.
    apply Z.even_spec in E1 as [a ->], E2 as [b ->], E3 as [c ->], E4 as [d ->].
    replace ((2 * a + 2 * c) / 2) with (2 * a / 2 + 2 * c / 2)
      by (Z.div_mod_to_equations; lia).
    replace ((2 * b + 2 * d) / 2) with (2 * b / 2 + 2 * d / 2)
      by (Z.div_mod_to_equations; lia).
    reflexivity.
Qed.

Lemma gate3_against_entity_checkCollision_witness :
  exists source target,
    entities skirmish_pool !! 26%nat = Some source /\
    entities skirmish_pool !! 3%nat = Some target /\
    is_u8 (width source) /\ is_u8 (height source) /\
    is_u8 (width target) /\ is_u8 (height target) /\
    gate3 source target = true /\
    entity_checkCollision source target = true.
Proof.
  eexists _, _.
  split; [vm_compute; reflexivity|]. split; [vm_compute; reflexivity|].
  split; [unfold is_u8; simpl; lia|]. split; [unfold is_u8; simpl; lia|].
  split; [unfold is_u8; simpl; lia|]. split; [unfold is_u8; simpl; lia|].
  split; [vm_compute; reflexivity|].
  refine (proj1 (gate3_against_entity_checkCollision _ _ _ _ _ _) _).
  - unfold is_u8; simpl; lia.
  - unfold is_u8; simpl; lia.
  - unfold is_u8; simpl; lia.
  - unfold is_u8; simpl; lia.
  - vm_compute; reflexivity.
Defined.

(** With odd sizes the two tests differ: two 13x13 boxes 12 pixels apart
    overlap for [entity_checkCollision] (12 < 13) and not for Gate 3
    (12 is not below 6 + 6). *)
Example gate3_stricter_on_odd_sizes :
  let a := set_height 13 (set_width 13 zero_entity) in
  let b := set_x (FP 12) a in
  entity_checkCollision a b = true /\ gate3 a b = false.
Proof. split; vm_compute; reflexivity. Qed.

(** ** Nearest entity *)

Lemma to_s32_small z : -2147483648 <= z < 2147483648 -> to_s32 z = z.
Proof. intros H. unfold to_s32. rewrite Z.mod_small; lia. Qed.

(** With [s32] positions and an [s16] query point nothing wraps: the
    distance is the Manhattan distance in pixels, below 2^25. *)
Lemma manhattan_to_pixels x0 y0 e :
  -2147483648 <= x e < 2147483648 -> -2147483648 <= y e < 2147483648 ->
  -32768 <= x0 < 32768 -> -32768 <= y0 < 32768 ->
  manhattan_to x0 y0 e = Z.abs (FP_INT (x e) - x0) + Z.abs (FP_INT (y e) - y0)
  /\ 0 <= manhattan_to x0 y0 e < 33554432.
Proof.
  intros Hx Hy Hx0 Hy0. unfold manhattan_to, FP_INT, FP_SHIFT.
  rewrite !Z.shiftr_div_pow2 by lia. change (2 ^ 8) with 256.
  assert (-8388608 <= x e / 256 < 8388608) by (Z.div_mod_to_equations; lia).
  assert (-8388608 <= y e / 256 < 8388608) by (Z.div_mod_to_equations; lia).
  rewrite (to_s32_small (x e / 256 - x0)), (to_s32_small (y e / 256 - y0)) by lia.
  rewrite to_s32_small by lia. lia.
Qed.

Lemma findNearest_scan_spec x0 y0 flagMask p n : forall i nearest minDist,
  0 <= i -> (Z.to_nat i + n <= length (entities p))%nat ->
  i + Z.of_nat n <= 256 ->
  exists r,
    findNearest_scan n i x0 y0 flagMask p nearest minDist = Ok r /\
    ((r = nearest /\
      forall j e, i <= j < i + Z.of_nat n ->
        entities p !! Z.to_nat j = Some e -> matches_flags flagMask e = true ->
        minDist <= manhattan_to x0 y0 e)
     \/
     (exists er,
        i <= r < i + Z.of_nat n /\
        entities p !! Z.to_nat r = Some er /\
        matches_flags flagMask er = true /\
        manhattan_to x0 y0 er < minDist /\
        (forall j e, i <= j < i + Z.of_nat n ->
           entities p !! Z.to_nat j = Some e -> matches_flags flagMask e = true ->
           manhattan_to x0 y0 er <= manhattan_to x0 y0 e) /\
        (forall j e, i <= j < r ->
           entities p !! Z.to_nat j = Some e -> matches_flags flagMask e = true ->
           manhattan_to x0 y0 er < manhattan_to x0 y0 e))).
Proof.
  induction n as [|n IH]; intros i nearest minDist Hi Hlen H256.
  - exists nearest. split; [reflexivity|]. left. split; [reflexivity|].
    intros j e Hj. lia.
  - destruct (load_in_bounds ArrEntities (entities p) i Hi ltac:(lia)) as [ei Hei].
    cbn [findNearest_scan]. rewrite Hei. cbn [bind].
    apply load_Ok in Hei as [_ Hlk].
    assert (Hsame : forall j e, j = i -> entities p !! Z.to_nat j = Some e -> e = ei).
    { intros j e -> He. rewrite Hlk in He. injection He as <-. reflexivity. }
    destruct (matches_flags flagMask ei) eqn:Hm;
      [destruct (Z.ltb_spec (manhattan_to x0 y0 ei) minDist) as [Hlt|Hge]|].
    + rewrite to_u8_small by lia.
      destruct (IH (i + 1) i (manhattan_to x0 y0 ei) ltac:(lia) ltac:(lia) ltac:(lia))
        as (r & Hr & [[-> Hall]|(er & Hrr & Hlr & Hmr & Hdr & Hmin & Hfirst)]).
      * exists i. split; [exact Hr|]. right. exists ei.
        split; [lia|]. split; [exact Hlk|]. split; [exact Hm|].
        split; [exact Hlt|]. split.
        -- intros j e Hj He Hme. destruct (Z.eq_dec j i) as [E|E].
           ++ rewrite (Hsame j e E He). lia.
           ++ apply (Hall j e); [lia | exact He | exact Hme].
        -- intros j e Hj. lia.
      * exists r. split; [exact Hr|]. right. exists er.
        split; [lia|]. split; [exact Hlr|]. split; [exact Hmr|].
        split; [lia|]. split.
        -- intros j e Hj He Hme. destruct (Z.eq_dec j i) as [E|E].
           ++ rewrite (Hsame j e E He). lia.
           ++ apply (Hmin j e); [lia | exact He | exact Hme].
        -- intros j e Hj He Hme. destruct (Z.eq_dec j i) as [E|E].
           ++ rewrite (Hsame j e E He). lia.
           ++ apply (Hfirst j e); [lia | exact He | exact Hme].
    + destruct (IH (i + 1) nearest minDist ltac:(lia) ltac:(lia) ltac:(lia))
        as (r & Hr & [[-> Hall]|(er & Hrr & Hlr & Hmr & Hdr & Hmin & Hfirst)]).
      * exists nearest. split; [exact Hr|]. left. split; [reflexivity|].
        intros j e Hj He Hme. destruct (Z.eq_dec j i) as [E|E].
        -- rewrite (Hsame j e E He). lia.
        -- apply (Hall j e); [lia | exact He | exact Hme].
      * exists r. split; [exact Hr|]. right. exists er.
        split; [lia|]. split; [exact Hlr|]. split; [exact Hmr|].
        split; [exact Hdr|]. split.
        -- intros j e Hj He Hme. destruct (Z.eq_dec j i) as [E|E].
           ++ rewrite (Hsame j e E He). lia.
           ++ apply (Hmin j e); [lia | exact He | exact Hme].
        -- intros j e Hj He Hme. destruct (Z.eq_dec j i) as [E|E].
           ++ rewrite (Hsame j e E He). lia.
           ++ apply (Hfirst j e); [lia | exact He | exact Hme].
    + destruct (IH (i + 1) nearest minDist ltac:(lia) ltac:(lia) ltac:(lia))
        as (r & Hr & [[-> Hall]|(er & Hrr & Hlr & Hmr & Hdr & Hmin & Hfirst)]).
      * exists nearest. split; [exact Hr|]. left. split; [reflexivity|].
        intros j e Hj He Hme. destruct (Z.eq_dec j i) as [E|E].
        -- rewrite (Hsame j e E He) in Hme. congruence.
        -- apply (Hall j e); [lia | exact He | exact Hme].
      * exists r. split; [exact Hr|]. right. exists er.
        split; [lia|]. split; [exact Hlr|]. split; [exact Hmr|].
        split; [exact Hdr|]. split.
        -- intros j e Hj He Hme. destruct (Z.eq_dec j i) as [E|E].
           ++ rewrite (Hsame j e E He) in Hme. congruence.
           ++ apply (Hmin j e); [lia | exact He | exact Hme].
        -- intros j e Hj He Hme. destruct (Z.eq_dec j i) as [E|E].
           ++ rewrite (Hsame j e E He) in Hme. congruence.
           ++ apply (Hfirst j e); [lia | exact He | exact Hme].
Qed.

(** X13. [entity_findNearest] (positions [s32], query point [s16])
    returns 0xFF exactly when no entity is active with a flag of
    [flagMask]; otherwise it returns the slot of such an entity at minimal
    Manhattan pixel distance from the point, the lowest-indexed one among
    those at that distance. *)
Theorem entity_findNearest_spec (cfg : Config) (x0 y0 flagMask : Z) (p : Pool) :
  wf_config cfg -> wf_pool cfg p ->
  (forall j e, entities p !! j = Some e ->
     -2147483648 <= x e < 2147483648 /\ -2147483648 <= y e < 2147483648) ->
  -32768 <= x0 < 32768 -> -32768 <= y0 < 32768 ->
  let dist e := Z.abs (FP_INT (x e) - x0) + Z.abs (FP_INT (y e) - y0) in
  exists r,
    entity_findNearest cfg x0 y0 flagMask p = Ok r /\
    ((r = 255 /\
      forall j e, entities p !! j = Some e -> matches_flags flagMask e = false)
     \/
     (exists er,
        0 <= r < MAX_ENTITIES cfg /\
        entities p !! Z.to_nat r = Some er /\
        matches_flags flagMask er = true /\
        (forall j e, entities p !! j = Some e ->
           matches_flags flagMask e = true -> dist er <= dist e) /\
        (forall j e, (j < Z.to_nat r)%nat -> entities p !! j = Some e ->
           matches_flags flagMask e = true -> dist er < dist e))).
Proof.
  intros Hcfg Hwf Hpos Hx0 Hy0 dist.
  assert (Hmax : 0 <= MAX_ENTITIES cfg <= 128) by (unfold wf_config in Hcfg; lia).
  unfold wf_pool in Hwf.
  assert (Hd : forall j e, entities p !! j = Some e ->
            manhattan_to x0 y0 e = dist e /\ 0 <= manhattan_to x0 y0 e < 33554432).
  { intros j e He. destruct (Hpos j e He) as [Hx Hy].
    apply manhattan_to_pixels; assumption. }
  destruct (findNearest_scan_spec x0 y0 flagMask p (Z.to_nat (MAX_ENTITIES cfg))
              0 255 2147483647 ltac:(lia) ltac:(lia) ltac:(lia))
    as (r & Hr & [[-> Hall]|(er & Hrr & Hlr & Hmr & _ & Hmin & Hfirst)]).
  - exists 255. split; [exact Hr|]. left. split; [reflexivity|].
    intros j e He. destruct (matches_flags flagMask e) eqn:Hm; [|reflexivity].
    pose proof (lookup_lt_Some _ _ _ He) as Hj.
    specialize (Hall (Z.of_nat j) e ltac:(lia)).
    rewrite Nat2Z.id in Hall. specialize (Hall He Hm).
    destruct (Hd j e He) as [_ Hb]. lia.
  - exists r. split; [exact Hr|]. right. exists er.
    split; [lia|]. split; [exact Hlr|]. split; [exact Hmr|].
    destruct (Hd _ _ Hlr) as [Her _]. split.
    + intros j e He Hm. pose proof (lookup_lt_Some _ _ _ He) as Hj.
      specialize (Hmin (Z.of_nat j) e ltac:(lia)).
      rewrite Nat2Z.id in Hmin. specialize (Hmin He Hm).
      destruct (Hd j e He) as [Hde _]. lia.
    + intros j e Hjr He Hm.
      specialize (Hfirst (Z.of_nat j) e ltac:(lia)).
      rewrite Nat2Z.id in Hfirst. specialize (Hfirst He Hm).
      destruct (Hd j e He) as [Hde _]. lia.
Qed.

Lemma skirmish_positions :
  forall j e, entities skirmish_pool !! j = Some e ->
    -2147483648 <= x e < 2147483648 /\ -2147483648 <= y e < 2147483648.
Proof.
  assert (H : forallb (fun e => (-2147483648 <=? x e) && (x e <? 2147483648)
                             && (-2147483648 <=? y e) && (y e <? 2147483648))
                (entities skirmish_pool) = true) by (vm_compute; reflexivity).
  intros j e He. rewrite forallb_forall in H.
  specialize (H e). 
  assert (Hin : In e (entities skirmish_pool)).
  { apply list_elem_of_In. eapply list_elem_of_lookup_2. exact He. }
  specialize (H Hin). 
  apply andb_true_iff in H as [H Hy2]. apply andb_true_iff in H as [H Hy1].
  apply andb_true_iff in H as [Hx1 Hx2]. lia.
Defined.

Lemma entity_findNearest_spec_witness :
  wf_config epoch_config /\ wf_pool epoch_config skirmish_pool /\
  -32768 <= 82 < 32768 /\ -32768 <= 71 < 32768 /\
  entity_findNearest epoch_config 82 71 16 skirmish_pool = Ok 255 /\
  exists r,
    entity_findNearest epoch_config 82 71 ENT_ACTIVE skirmish_pool = Ok r /\
    ((r = 255 /\
      forall j e, entities skirmish_pool !! j = Some e ->
                  matches_flags ENT_ACTIVE e = false)
     \/
     (exists er,
        0 <= r < MAX_ENTITIES epoch_config /\
        entities skirmish_pool !! Z.to_nat r = Some er /\
        matches_flags ENT_ACTIVE er = true /\
        (forall j e, entities skirmish_pool !! j = Some e ->
           matches_flags ENT_ACTIVE e = true ->
           Z.abs (FP_INT (x er) - 82) + Z.abs (FP_INT (y er) - 71)
           <= Z.abs (FP_INT (x e) - 82) + Z.abs (FP_INT (y e) - 71)) /\
        (forall j e, (j < Z.to_nat r)%nat ->
           entities skirmish_pool !! j = Some e ->
           matches_flags ENT_ACTIVE e = true ->
           Z.abs (FP_INT (x er) - 82) + Z.abs (FP_INT (y er) - 71)
           < Z.abs (FP_INT (x e) - 82) + Z.abs (FP_INT (y e) - 71)))).
Proof.
  split; [unfold wf_config; simpl; lia|]. split; [vm_compute; reflexivity|].
  split; [lia|]. split; [lia|]. split; [vm_compute; reflexivity|].
  apply (entity_findNearest_spec epoch_config 82 71 ENT_ACTIVE skirmish_pool).
  - unfold wf_config; simpl; lia.
  - vm_compute; reflexivity.
  - exact skirmish_positions.
  - lia.
  - lia.
Defined.

Example skirmish_nearest :
  entity_findNearest epoch_config 82 71 ENT_ACTIVE skirmish_pool = Ok 3.
Proof. vm_compute; reflexivity. Qed.

(** ** Collision against the tile map *)

Section TileMap.

Variable cfg : Config.
Variable m : CollisionMap.
Hypothesis Hmap : wf_collisionMap cfg m.
Hypothesis Hbytes : MAP_WIDTH_TILES cfg mod 8 = 0.

Lemma tile_solid_in_bounds ty tx :
  0 <= ty < MAP_HEIGHT_TILES cfg -> 0 <= tx < MAP_WIDTH_TILES cfg ->
  exists b, tile_solid m ty tx = Some b.
Proof.
  intros Hty Htx. destruct Hmap as [Hrows Hcols]. unfold tile_solid.
  destruct (Z.ltb_spec ty 0); [lia|]. destruct (Z.ltb_spec tx 0); [lia|].
  cbn [orb].
  destruct (lookup_lt_is_Some_2 m (Z.to_nat ty) ltac:(lia)) as [row Hrow].
  rewrite Hrow.
  assert (Hlen : length row = Z.to_nat (MAP_WIDTH_TILES cfg / 8)).
  { rewrite Forall_forall in Hcols. apply Hcols.
    eapply list_elem_of_lookup_2. exact Hrow. }
  assert (Hcol : (Z.to_nat (Z.shiftr tx 3) < length row)%nat).
  { rewrite Hlen, Z.shiftr_div_pow2 by lia. change (2 ^ 3) with 8.
    assert (0 <= tx / 8 < MAP_WIDTH_TILES cfg / 8)
      by (Z.div_mod_to_equations; lia).
    lia. }
  destruct (lookup_lt_is_Some_2 row _ Hcol) as [byte Hbyte].
  rewrite Hbyte. eauto.
Qed.

Lemma tile_row_scan_spec ty (Hty : 0 <= ty < MAP_HEIGHT_TILES cfg) n :
  forall tx, 0 <= tx -> tx + Z.of_nat n <= MAP_WIDTH_TILES cfg ->
  exists v,
    tile_row_scan n m ty tx = Some v /\
    (v = true <->
     exists tx', tx <= tx' < tx + Z.of_nat n /\ tile_solid m ty tx' = Some true).
Proof.
  induction n as [|n IH]; intros tx Htx Hn.
  - exists false. split; [reflexivity|]. split; [discriminate|].
    intros (tx' & H & _). lia.
  - cbn [tile_row_scan].
    destruct (tile_solid_in_bounds ty tx Hty ltac:(lia)) as [[|] Hb]; rewrite Hb.
    + exists true. split; [reflexivity|]. split; [|reflexivity].
      intros _. exists tx. split; [lia | exact Hb].
    + destruct (IH (tx + 1) ltac:(lia) ltac:(lia)) as (v & Hv & Hiff).
      exists v. split; [exact Hv|]. rewrite Hiff. split.
      * intros (tx' & H & Hs). exists tx'. split; [lia | exact Hs].
      * intros (tx' & H & Hs). destruct (Z.eq_dec tx' tx) as [->|Hne].
        -- rewrite Hb in Hs. discriminate.
        -- exists tx'. split; [lia | exact Hs].
Qed.

Lemma tile_rows_scan_spec tLeft tRight
    (Hl : 0 <= tLeft < MAP_WIDTH_TILES cfg) (Hr : tRight < MAP_WIDTH_TILES cfg) k :
  forall ty, 0 <= ty -> ty + Z.of_nat k <= MAP_HEIGHT_TILES cfg ->
  exists v,
    tile_rows_scan k m tLeft tRight ty = Some v /\
    (v = true <->
     exists tx' ty', tLeft <= tx' <= tRight /\ ty <= ty' < ty + Z.of_nat k /\
                     tile_solid m ty' tx' = Some true).
Proof.
  induction k as [|k IH]; intros ty Hty Hk.
  - exists false. split; [reflexivity|]. split; [discriminate|].
    intros (tx' & ty' & _ & H & _). lia.
  - cbn [tile_rows_scan].
    destruct (tile_row_scan_spec ty ltac:(lia) (Z.to_nat (tRight - tLeft + 1))
                tLeft ltac:(lia) ltac:(lia)) as ([|] & Hrow & Hiff); rewrite Hrow.
    + exists true. split; [reflexivity|]. split; [|reflexivity].
      intros _. destruct (proj1 Hiff eq_refl) as (tx' & Hx & Hs).
      exists tx', ty. split; [lia|]. split; [lia | exact Hs].
    + destruct (IH (ty + 1) ltac:(lia) ltac:(lia)) as (v & Hv & Hviff).
      exists v. split; [exact Hv|]. rewrite Hviff. split.
      * intros (tx' & ty' & Hx & Hy & Hs). exists tx', ty'.
        split; [exact Hx|]. split; [lia | exact Hs].
      * intros (tx' & ty' & Hx & Hy & Hs).
        destruct (Z.eq_dec ty' ty) as [->|Hne].
        -- assert (Hf : false = true); [|discriminate].
           apply Hiff. exists tx'. split; [lia | exact Hs].
        -- exists tx', ty'. split; [exact Hx|]. split; [lia | exact Hs].
Qed.

End TileMap.

Lemma tile_coord_bound size v :
  8 <= size <= 32768 -> 0 <= v < size ->
  0 <= (if to_u16 (Z.shiftr v 3) >=? size / 8 then to_u16 (size / 8 - 1)
        else to_u16 (Z.shiftr v 3)) < size / 8.
Proof.
  intros Hs Hv. rewrite Z.shiftr_div_pow2 by lia. change (2 ^ 3) with 8.
  assert (1 <= size / 8 <= 4096) by (Z.div_mod_to_equations; lia).
  assert (0 <= v / 8 < 4096) by (Z.div_mod_to_equations; lia).
  rewrite (to_u16_small (v / 8)), (to_u16_small (size / 8 - 1)) by lia.
  destruct (Z.geb_spec (v / 8) (size / 8)); lia.
Qed.

(** After the early exit the four tile coordinates lie inside the map. *)
Lemma tile_rect_in_map cfg e newX newY tLeft tRight tTop tBottom :
  8 <= MAP_WIDTH cfg <= 32768 -> 8 <= MAP_HEIGHT cfg <= 32768 ->
  tile_rect cfg e newX newY = Some (tLeft, tRight, tTop, tBottom) ->
  0 <= tLeft < MAP_WIDTH_TILES cfg /\ 0 <= tRight < MAP_WIDTH_TILES cfg /\
  0 <= tTop < MAP_HEIGHT_TILES cfg /\ 0 <= tBottom < MAP_HEIGHT_TILES cfg.
Proof.
  intros HW HH. unfold tile_rect, MAP_WIDTH_TILES, MAP_HEIGHT_TILES.
  set (halfW := to_s16 (Z.shiftr (width e) 1)).
  set (halfH := to_s16 (Z.shiftr (height e) 1)).
  pose proof (to_s16_range (newX - halfW)) as Hl.
  pose proof (to_s16_range (newX + halfW)) as Hr.
  pose proof (to_s16_range (newY - halfH)) as Ht.
  pose proof (to_s16_range (newY + halfH)) as Hb.
  rewrite (to_s16_small (MAP_WIDTH cfg - 1)), (to_s16_small (MAP_HEIGHT cfg - 1))
    by lia.
  set (left := if to_s16 (newX - halfW) <? 0 then 0 else to_s16 (newX - halfW)).
  set (top := if to_s16 (newY - halfH) <? 0 then 0 else to_s16 (newY - halfH)).
  set (right := if to_s16 (newX + halfW) >=? MAP_WIDTH cfg
                then MAP_WIDTH cfg - 1 else to_s16 (newX + halfW)).
  set (bottom := if to_s16 (newY + halfH) >=? MAP_HEIGHT cfg
                 then MAP_HEIGHT cfg - 1 else to_s16 (newY + halfH)).
  assert (Hl1 : 0 <= left)
    by (unfold left; destruct (Z.ltb_spec (to_s16 (newX - halfW)) 0); lia).
  assert (Ht1 : 0 <= top)
    by (unfold top; destruct (Z.ltb_spec (to_s16 (newY - halfH)) 0); lia).
  assert (Hr1 : right < MAP_WIDTH cfg)
    by (unfold right;
        destruct (Z.geb_spec (to_s16 (newX + halfW)) (MAP_WIDTH cfg)); lia).
  assert (Hb1 : bottom < MAP_HEIGHT cfg)
    by (unfold bottom;
        destruct (Z.geb_spec (to_s16 (newY + halfH)) (MAP_HEIGHT cfg)); lia).
  clearbody left top right bottom.
  destruct (Z.geb_spec left (MAP_WIDTH cfg)); [discriminate|].
  destruct (Z.ltb_spec right 0); [discriminate|].
  destruct (Z.geb_spec top (MAP_HEIGHT cfg)); [discriminate|].
  destruct (Z.ltb_spec bottom 0); [discriminate|].
  cbn [orb]. intros [= <- <- <- <-].
  repeat split; apply tile_coord_bound; lia.
Qed.

(** X14. [entity_checkTileCollision] never reads [collisionMap]
    outside its declared bounds, for any entity and any position (the map
    being [MAP_HEIGHT_TILES] rows of [MAP_WIDTH_TILES / 8] bytes, with
    [MAP_WIDTH_TILES] a multiple of 8 and map sizes that fit an [s16]).  It
    returns FALSE when the clamped hitbox is off the map, and otherwise TRUE
    exactly when some tile of the clamped rectangle has its bit set. *)
Theorem entity_checkTileCollision_in_bounds
    (cfg : Config) (m : CollisionMap) (e : Entity) (newX newY : Z) :
  wf_collisionMap cfg m -> MAP_WIDTH_TILES cfg mod 8 = 0 ->
  8 <= MAP_WIDTH cfg <= 32768 -> 8 <= MAP_HEIGHT cfg <= 32768 ->
  exists v,
    entity_checkTileCollision cfg m e newX newY = Some v /\
    match tile_rect cfg e newX newY with
    | None => v = false
    | Some (tLeft, tRight, tTop, tBottom) =>
        0 <= tLeft < MAP_WIDTH_TILES cfg /\ 0 <= tRight < MAP_WIDTH_TILES cfg /\
        0 <= tTop < MAP_HEIGHT_TILES cfg /\ 0 <= tBottom < MAP_HEIGHT_TILES cfg /\
        (v = true <->
         exists tx ty, tLeft <= tx <= tRight /\ tTop <= ty <= tBottom /\
                       tile_solid m ty tx = Some true)
    end.
Proof.
  intros Hmap Hbytes HW HH. unfold entity_checkTileCollision.
  destruct (tile_rect cfg e newX newY) as [[[[tLeft tRight] tTop] tBottom]|] eqn:Hrect.
  2:{ exists false. auto. }
  destruct (tile_rect_in_map cfg e newX newY _ _ _ _ HW HH Hrect)
    as (Hl & Hr & Ht & Hb).
  destruct (tile_rows_scan_spec cfg m Hmap Hbytes tLeft tRight Hl ltac:(lia)
              (Z.to_nat (tBottom - tTop + 1)) tTop ltac:(lia) ltac:(lia))
    as (v & Hv & Hiff).
  exists v. split; [exact Hv|]. repeat (split; [lia|]).
  rewrite Hiff. split.
  - intros (tx & ty & Hx & Hy & Hs). exists tx, ty.
    split; [exact Hx|]. split; [lia | exact Hs].
  - intros (tx & ty & Hx & Hy & Hs). exists tx, ty.
    split; [exact Hx|]. split; [lia | exact Hs].
Qed.

Lemma wf_empty_collisionMap cfg : wf_collisionMap cfg (empty_collisionMap cfg).
Proof.
  split.
  - unfold empty_collisionMap. apply length_replicate.
  - unfold empty_collisionMap. apply Forall_replicate. apply length_replicate.
Qed.

Lemma entity_checkTileCollision_in_bounds_witness :
  wf_collisionMap epoch_config (empty_collisionMap epoch_config) /\
  MAP_WIDTH_TILES epoch_config mod 8 = 0 /\
  8 <= MAP_WIDTH epoch_config <= 32768 /\
  8 <= MAP_HEIGHT epoch_config <= 32768 /\
  exists v,
    entity_checkTileCollision epoch_config (empty_collisionMap epoch_config)
      (set_height 12 (set_width 12 zero_entity)) 70 70 = Some v.
Proof.
  split; [apply wf_empty_collisionMap|]. split; [reflexivity|].
  split; [simpl; lia|]. split; [simpl; lia|].
  destruct (entity_checkTileCollision_in_bounds epoch_config
              (empty_collisionMap epoch_config)
              (set_height 12 (set_width 12 zero_entity)) 70 70
              (wf_empty_collisionMap epoch_config) eq_refl
              ltac:(simpl; lia) ltac:(simpl; lia)) as (v & Hv & _).
  exists v. exact Hv.
Defined.

Example tile_collision_runs :
  let e := set_height 12 (set_width 12 zero_entity) in
  entity_checkTileCollision epoch_config (empty_collisionMap epoch_config) e 70 70
    = Some false /\
  tile_rect epoch_config e 70 70 = Some (8, 9, 8, 9) /\
  entity_checkTileCollision epoch_config one_tile_collisionMap e 70 70
    = Some true /\
  entity_checkTileCollision epoch_config one_tile_collisionMap e 90 70
    = Some false /\
  entity_checkTileCollision epoch_config one_tile_collisionMap e (-32768) 70
    = Some false /\
  tile_rect epoch_config e 1500 70 = None.
Proof. repeat apply conj; vm_compute; reflexivity. Qed.

(** ** Spawning *)

(** X15. [pickups_spawn] drops the spawn, leaving the pool as it was,
    when the miscellaneous range is full.  Otherwise the pickup takes a
    free slot of that range: flags [ENT_ACTIVE | ENT_VISIBLE |
    ENT_PICKUP], type health or XP, value 50 for a big XP pickup and 10
    otherwise, the given position, zero velocity and timer, the default
    16x16 box and [COLL_PICKUP] mask; [entityCount] goes up by one and no
    other slot changes. *)
Theorem pickups_spawn_spec (cfg : Config) (x0 y0 pickupType : Z) (p : Pool) (s e : Z) :
  wf_config cfg -> wf_pool cfg p ->
  slot_range cfg ENT_TYPE_PICKUP_XP = (s, e) ->
  ((forall j, s <= j < e -> slot_active p j = true) ->
   pickups_spawn cfg x0 y0 pickupType p = Ok p)
  /\
  (forall k, s <= k < e -> slot_active p k = false ->
   exists slot p' e1,
     pickups_spawn cfg x0 y0 pickupType p = Ok p' /\
     s <= slot < e /\ slot_active p slot = false /\
     entities p' !! Z.to_nat slot = Some e1 /\
     flags e1 = Z.lor (Z.lor ENT_ACTIVE ENT_VISIBLE) ENT_PICKUP /\
     type e1 = (if pickupType =? PICKUP_HEALTH then ENT_TYPE_PICKUP_HEALTH
                else ENT_TYPE_PICKUP_XP) /\
     data e1 = (if pickupType =? PICKUP_XP_BIG then 50 else 10) /\
     x e1 = to_s32 (FP x0) /\ y e1 = to_s32 (FP y0) /\
     vx e1 = 0 /\ vy e1 = 0 /\ timer e1 = 0 /\
     width e1 = 16 /\ height e1 = 16 /\ collMask e1 = COLL_PICKUP /\
     entityCount p' = to_u8 (entityCount p + 1) /\
     (forall j : nat, j <> Z.to_nat slot -> entities p' !! j = entities p !! j)).
Proof.
  intros Hcfg Hwf Hr.
  destruct (slot_range_bounds _ _ _ _ Hcfg Hr) as (Hs & He & He').
  destruct (entity_alloc_spec cfg ENT_TYPE_PICKUP_XP p s e Hcfg Hwf Hr)
    as [[Hres Hall]|(i & e0 & Hi & Hlk & Hin & _ & Hres)].
  - split.
    + intros _. unfold pickups_spawn. rewrite Hres. cbn [bind]. reflexivity.
    + intros k Hk Hfree. rewrite (Hall k Hk) in Hfree. discriminate.
  - split.
    + intros Hall. specialize (Hall i Hi). unfold slot_active in Hall.
      rewrite Hlk, Hin in Hall. discriminate.
    + intros _ _ _. pose proof (lookup_lt_Some _ _ _ Hlk) as Hlen.
      unfold pickups_spawn. rewrite Hres. cbn [bind].
      destruct (Z.ltb_spec i 0); [lia|].
      rewrite (to_u8_small i) by lia.
      assert (Hl1 : load ArrEntities
                (entities {| entities := <[Z.to_nat i := alloc_init ENT_TYPE_PICKUP_XP e0]>
                                           (entities p);
                             entityCount := to_u8 (entityCount p + 1) |}) i
              = Ok (alloc_init ENT_TYPE_PICKUP_XP e0)).
      { apply load_Ok. split; [lia|]. cbn [entities].
        apply list_lookup_insert_eq. exact Hlen. }
      rewrite Hl1. cbn [bind].
      rewrite (store_after_load _ _ _ _ _ Hl1). cbn [bind entities entityCount].
      destruct (pickupType =? PICKUP_HEALTH), (pickupType =? PICKUP_XP_BIG);
        (eexists i, _, _; split; [reflexivity|];
         split; [exact Hi|];
         split; [unfold slot_active; rewrite Hlk; exact Hin|];
         cbn [entities]; rewrite list_insert_insert_eq;
         split; [apply list_lookup_insert_eq; exact Hlen|];
         do 12 (split; [reflexivity|]);
         intros j Hj; apply list_lookup_insert_ne; lia).
Qed.

Lemma pickups_spawn_spec_witness :
  wf_config epoch_config /\ wf_pool epoch_config cycled_pool /\
  slot_range epoch_config ENT_TYPE_PICKUP_XP = (58, 64) /\
  58 <= 58 < 64 /\ slot_active cycled_pool 58 = false /\
  exists slot p' e1,
    pickups_spawn epoch_config 100 120 PICKUP_XP_BIG cycled_pool = Ok p' /\
    58 <= slot < 64 /\
    entities p' !! Z.to_nat slot = Some e1 /\
    data e1 = 50 /\ vx e1 = 0 /\ vy e1 = 0 /\ collMask e1 = COLL_PICKUP.
Proof.
  split; [unfold wf_config; simpl; lia|]. split; [reflexivity|].
  split; [reflexivity|]. split; [lia|]. split; [vm_compute; reflexivity|].
  destruct (proj2 (pickups_spawn_spec epoch_config 100 120 PICKUP_XP_BIG
                     cycled_pool 58 64
                     ltac:(unfold wf_config; simpl; lia) eq_refl eq_refl)
              58 ltac:(lia) ltac:(vm_compute; reflexivity))
    as (slot & p' & e1 & Hsp & Hslot & _ & Hlk & _ & _ & Hd & _ & _ & Hvx & Hvy
        & _ & _ & _ & Hcm & _).
  exists slot, p', e1. repeat split; try assumption; lia.
Defined.

(** X16. [tower_spawn] drops the spawn when the miscellaneous range is
    full.  Otherwise the tower's slot gets flags 0x0F, 200 hit points and
    the tower position, but its hitbox is empty: [FP(50)] is 12800, which
    the [u8] fields [width] and [height] truncate to 0.  With such a tower
    as target, Gate 3 compares the distances with the source's half sizes
    alone. *)
Theorem tower_spawn_hitbox_truncated (cfg : Config) (p : Pool) (s e : Z) :
  wf_config cfg -> wf_pool cfg p ->
  slot_range cfg ENT_TYPE_TOWER_CENTER = (s, e) ->
  ((forall j, s <= j < e -> slot_active p j = true) ->
   tower_spawn cfg p = Ok p)
  /\
  (forall k, s <= k < e -> slot_active p k = false ->
   exists slot p' e1,
     tower_spawn cfg p = Ok p' /\
     s <= slot < e /\
     entities p' !! Z.to_nat slot = Some e1 /\
     flags e1 = 15 /\ type e1 = ENT_TYPE_TOWER_CENTER /\
     collMask e1 = COLL_TOWER /\ hp e1 = 200 /\
     x e1 = FP TOWER_X /\ y e1 = FP TOWER_Y /\
     FP 50 = 12800 /\ width e1 = 0 /\ height e1 = 0 /\
     (forall source,
        is_u8 (width source) -> is_u8 (height source) ->
        gate3 source e1 =
          (dist_x source e1 <? Z.shiftr (width source) 1)
          && (dist_y source e1 <? Z.shiftr (height source) 1))).
Proof.
  intros Hcfg Hwf Hr.
  destruct (slot_range_bounds _ _ _ _ Hcfg Hr) as (Hs & He & He').
  destruct (entity_alloc_spec cfg ENT_TYPE_TOWER_CENTER p s e Hcfg Hwf Hr)
    as [[Hres Hall]|(i & e0 & Hi & Hlk & Hin & _ & Hres)].
  - split.
    + intros _. unfold tower_spawn. rewrite Hres. cbn [bind]. reflexivity.
    + intros k Hk Hfree. rewrite (Hall k Hk) in Hfree. discriminate.
  - split.
    + intros Hall. specialize (Hall i Hi). unfold slot_active in Hall.
      rewrite Hlk, Hin in Hall. discriminate.
    + intros _ _ _. pose proof (lookup_lt_Some _ _ _ Hlk) as Hlen.
      unfold tower_spawn. rewrite Hres. cbn [bind].
      destruct (Z.ltb_spec i 0); [lia|].
      assert (Hl1 : load ArrEntities
                (entities {| entities := <[Z.to_nat i := alloc_init ENT_TYPE_TOWER_CENTER e0]>
                                           (entities p);
                             entityCount := to_u8 (entityCount p + 1) |}) i
              = Ok (alloc_init ENT_TYPE_TOWER_CENTER e0)).
      { apply load_Ok. split; [lia|]. cbn [entities].
        apply list_lookup_insert_eq. exact Hlen. }
      rewrite Hl1. cbn [bind].
      rewrite (store_after_load _ _ _ _ _ Hl1). cbn [bind entities entityCount].
      eexists i, _, _. split; [reflexivity|]. split; [exact Hi|].
      cbn [entities]. rewrite list_insert_insert_eq.
      split; [apply list_lookup_insert_eq; exact Hlen|].
      do 9 (split; [reflexivity|]).
      intros source Hsw Hsh. unfold is_u8 in *.
      unfold gate3, srcHalfW, srcHalfH.
      set (dx := dist_x source _). set (dy := dist_y source _).
      cbn [width height set_hp set_height set_width].
      change (to_u8 (FP 50)) with 0.
      change (to_s16 (Z.shiftr 0 1)) with 0.
      rewrite !Z.add_0_r.
      assert (Hb : forall v, 0 <= v < 256 ->
                to_s16 (to_s16 (Z.shiftr v 1)) = Z.shiftr v 1).
      { intros v Hv. rewrite Z.shiftr_div_pow2 by lia. change (2 ^ 1) with 2.
        assert (0 <= v / 2 < 128) by (Z.div_mod_to_equations; lia).
        rewrite (to_s16_small (v / 2)) by lia.
        rewrite (to_s16_small (v / 2)) by lia. reflexivity. }
      rewrite (Hb _ Hsw), (Hb _ Hsh). reflexivity.
Qed.

Lemma tower_spawn_hitbox_truncated_witness :
  wf_config epoch_config /\ wf_pool epoch_config cycled_pool /\
  slot_range epoch_config ENT_TYPE_TOWER_CENTER = (58, 64) /\
  58 <= 58 < 64 /\ slot_active cycled_pool 58 = false /\
  exists slot p' e1,
    tower_spawn epoch_config cycled_pool = Ok p' /\
    entities p' !! Z.to_nat slot = Some e1 /\
    width e1 = 0 /\ height e1 = 0.
Proof.
  split; [unfold wf_config; simpl; lia|]. split; [reflexivity|].
  split; [reflexivity|]. split; [lia|]. split; [vm_compute; reflexivity|].
  destruct (proj2 (tower_spawn_hitbox_truncated epoch_config cycled_pool 58 64
                     ltac:(unfold wf_config; simpl; lia) eq_refl eq_refl)
              58 ltac:(lia) ltac:(vm_compute; reflexivity))
    as (slot & p' & e1 & Hsp & _ & Hlk & _ & _ & _ & _ & _ & _ & _ & Hw & Hh & _).
  exists slot, p', e1. auto.
Defined.

Lemma pool_inv_overwrite cfg p i e e' :
  pool_inv cfg p -> entities p !! i = Some e -> is_active e = is_active e' ->
  pool_inv cfg {| entities := <[i := e']> (entities p);
                  entityCount := entityCount p |}.
Proof.
  intros [Hwf Hcnt] Hlk Ha. split.
  - unfold wf_pool in *. cbn [entities]. rewrite length_insert. exact Hwf.
  - cbn [entities entityCount].
    rewrite (count_active_insert _ _ _ _ Hlk), Ha, Hcnt. lia.
Qed.

(** X17. The spawn callers keep the pool invariant: from a pool of
    [MAX_ENTITIES] entries whose [entityCount] is the number of active
    entities, [pickups_spawn] and [tower_spawn] lead to such a pool again
    (they overwrite [flags] with [ENT_ACTIVE] still set). *)
Theorem spawns_keep_entityCount (cfg : Config) (p : Pool) :
  wf_config cfg -> pool_inv cfg p ->
  (forall x0 y0 pickupType p',
     pickups_spawn cfg x0 y0 pickupType p = Ok p' -> pool_inv cfg p')
  /\
  (forall p', tower_spawn cfg p = Ok p' -> pool_inv cfg p').
Proof.
  intros Hcfg Hinv. pose proof Hinv as [Hwf _].
  assert (Halloc : forall ty,
    exists s e, slot_range cfg ty = (s, e) /\ 0 <= s /\ e <= 128 /\
    ((entity_alloc cfg ty p = Ok (-1, p))
     \/ exists i e0 p1,
          s <= i < e /\ entity_alloc cfg ty p = Ok (i, p1) /\ pool_inv cfg p1 /\
          entities p1 !! Z.to_nat i = Some (alloc_init ty e0))).
  { intros ty. destruct (slot_range cfg ty) as [s e] eqn:Hr. exists s, e.
    destruct (slot_range_bounds _ _ _ _ Hcfg Hr) as (Hs & He & He').
    split; [reflexivity|]. split; [lia|]. split; [lia|].
    destruct (entity_alloc_spec cfg ty p s e Hcfg Hwf Hr)
      as [[Hres _]|(i & e0 & Hi & Hlk & Hin & _ & Hres)]; [left; exact Hres|].
    right. eexists i, e0, _. split; [exact Hi|]. split; [exact Hres|].
    split; [eapply pool_inv_alloc; eauto|].
    cbn [entities]. apply list_lookup_insert_eq. eapply lookup_lt_Some; eauto. }
  split.
  - intros x0 y0 pickupType p' Hsp. unfold pickups_spawn in Hsp.
    destruct (Halloc ENT_TYPE_PICKUP_XP)
      as (s & e & _ & Hs & He & [Hres|(i & e0 & p1 & Hi & Hres & Hinv1 & Hlk1)]);
      rewrite Hres in Hsp; cbn [bind] in Hsp.
    + change (-1 <? 0) with true in Hsp. injection Hsp as <-. exact Hinv.
    + destruct (Z.ltb_spec i 0); [lia|]. rewrite (to_u8_small i) in Hsp by lia.
      assert (Hl1 : load ArrEntities (entities p1) i
                    = Ok (alloc_init ENT_TYPE_PICKUP_XP e0))
        by (apply load_Ok; split; [lia | exact Hlk1]).
      rewrite Hl1 in Hsp. cbn [bind] in Hsp.
      rewrite (store_after_load _ _ _ _ _ Hl1) in Hsp. cbn [bind] in Hsp.
      injection Hsp as <-.
      eapply pool_inv_overwrite; [exact Hinv1 | exact Hlk1 |].
      rewrite is_active_alloc_init.
      destruct (pickupType =? PICKUP_HEALTH); reflexivity.
  - intros p' Hsp. unfold tower_spawn in Hsp.
    destruct (Halloc ENT_TYPE_TOWER_CENTER)
      as (s & e & _ & Hs & He & [Hres|(i & e0 & p1 & Hi & Hres & Hinv1 & Hlk1)]);
      rewrite Hres in Hsp; cbn [bind] in Hsp.
    + change (-1 <? 0) with true in Hsp. injection Hsp as <-. exact Hinv.
    + destruct (Z.ltb_spec i 0); [lia|].
      assert (Hl1 : load ArrEntities (entities p1) i
                    = Ok (alloc_init ENT_TYPE_TOWER_CENTER e0))
        by (apply load_Ok; split; [lia | exact Hlk1]).
      rewrite Hl1 in Hsp. cbn [bind] in Hsp.
      rewrite (store_after_load _ _ _ _ _ Hl1) in Hsp. cbn [bind] in Hsp.
      injection Hsp as <-.
      eapply pool_inv_overwrite; [exact Hinv1 | exact Hlk1 |].
      rewrite is_active_alloc_init. reflexivity.
Qed.

Lemma spawns_keep_entityCount_witness :
  wf_config epoch_config /\ pool_inv epoch_config cycled_pool /\
  exists p',
    pickups_spawn epoch_config 100 120 PICKUP_XP_BIG cycled_pool = Ok p' /\
    pool_inv epoch_config p'.
Proof.
  assert (Hinv : pool_inv epoch_config cycled_pool)
    by (split; [reflexivity | vm_compute; reflexivity]).
  split; [unfold wf_config; simpl; lia|]. split; [exact Hinv|].
  eexists. split; [vm_compute; reflexivity|].
  apply (proj1 (spawns_keep_entityCount epoch_config cycled_pool
                  ltac:(unfold wf_config; simpl; lia) Hinv)
           100 120 PICKUP_XP_BIG).
  vm_compute; reflexivity.
Defined.

(** ** Gate 2 on the default hitboxes *)

(** X18. For a target that carries the default hitbox [entity_alloc]
    gives any type outside the tower category (0x4X), and a source with
    [u8] sizes, Gate 2 never rejects a pair that Gate 3 accepts: these
    defaults are at most 24x24, so the target's half extents sum to at most
    24, within the 32 that [manhattanMax] allows for. *)
Theorem gate2_sound_for_default_targets (source target : Entity) (ty : Z) :
  is_u8 (width source) -> is_u8 (height source) ->
  (width target, height target, collMask target) = default_hitbox ty ->
  Z.land ty 240 <> ENT_TYPE_TOWER_BASIC ->
  gate3 source target = true -> gate2 source target = true.
Proof.
  intros Hsw Hsh Hbox Hcat.
  assert (Hdims : (width target = 12 /\ height target = 12) \/
                  (width target = 16 /\ height target = 16) \/
                  (width target = 24 /\ height target = 24)).
  { unfold default_hitbox in Hbox.
    destruct (Z.land ty 240 =? ENT_TYPE_PLAYER);
      [injection Hbox as -> -> _; auto|].
    destruct (Z.land ty 240 =? ENT_TYPE_ENEMY_BASIC);
      [injection Hbox as -> -> _; auto|].
    destruct (Z.land ty 240 =? ENT_TYPE_PROJ_PLAYER);
      [injection Hbox as -> -> _; auto|].
    destruct (Z.eqb_spec (Z.land ty 240) ENT_TYPE_TOWER_BASIC); [contradiction|].
    destruct (Z.land ty 240 =? 96); injection Hbox as -> -> _; auto. }
  apply gate3_implies_gate2_small_target; try assumption;
    destruct Hdims as [[Hw Hh]|[[Hw Hh]|[Hw Hh]]]; rewrite ?Hw, ?Hh;
    try (unfold is_u8; lia); vm_compute; discriminate.
Qed.

Lemma gate2_sound_for_default_targets_witness :
  exists source target,
    entities skirmish_pool !! 26%nat = Some source /\
    entities skirmish_pool !! 3%nat = Some target /\
    is_u8 (width source) /\ is_u8 (height source) /\
    (width target, height target, collMask target)
      = default_hitbox ENT_TYPE_ENEMY_BASIC /\
    Z.land ENT_TYPE_ENEMY_BASIC 240 <> ENT_TYPE_TOWER_BASIC /\
    gate3 source target = true /\ gate2 source target = true.
Proof.
  eexists _, _.
  split; [vm_compute; reflexivity|]. split; [vm_compute; reflexivity|].
  split; [unfold is_u8; simpl; lia|]. split; [unfold is_u8; simpl; lia|].
  split; [reflexivity|]. split; [discriminate|].
  split; [vm_compute; reflexivity|].
  refine (gate2_sound_for_default_targets _ _ ENT_TYPE_ENEMY_BASIC _ _ _ _ _).
  - unfold is_u8; simpl; lia.
  - unfold is_u8; simpl; lia.
  - reflexivity.
  - discriminate.
  - vm_compute; reflexivity.
Defined.
